(** * gonut: the [push] command (internal/gonut/cmd/push.go)

    A shallow embedding of the command dispatch layer of gonut: the
    setting mappers, the duration formatter, the report printer and the
    push orchestration, followed by the properties of each. *)

From Stdlib Require Import ZArith String Ascii List Lia Bool.
From Stdlib Require Import DecimalString.
From Stdlib Require Import Floats.SpecFloat.
Import ListNotations.

Local Open Scope string_scope.
Local Open Scope list_scope.
Local Open Scope Z_scope.

(** String concatenation, Go's [+] on strings. *)
Infix "+++" := String.append (at level 60, right associativity).

(** ** Go's [float64]

    IEEE 754 binary64 with round-to-nearest-even, as specified by the
    standard library's [SpecFloat] (precision 53, infinities at exponent
    1024).  Only what [time.Duration.Seconds] and the conversion [int(f)]
    need. *)

Module Float64.

Definition prec : Z := 53.
Definition emax : Z := 1024.

Definition float64 : Type := spec_float.

(** [float64(n)] for an integer [n]. *)
Definition of_int (n : Z) : float64 := binary_normalize prec emax n 0 false.

Definition add (x y : float64) : float64 := SFadd prec emax x y.
Definition div (x y : float64) : float64 := SFdiv prec emax x y.

(** [int(f)]: the fraction is discarded (truncation towards zero).  Go
    leaves the conversion of NaN and of the infinities to the
    implementation; they never arise from a [time.Duration]. *)
Definition to_int (f : float64) : Z :=
  match f with
  | S754_finite s m e =>
      let a := match e with
               | Zneg p => Z.shiftr (Zpos m) (Zpos p)
               | _ => Z.shiftl (Zpos m) e
               end in
      if s then - a else a
  | _ => 0
  end.

End Float64.

(** ** Package [time] *)

Module time.

(** A [Duration] is an [int64] count of nanoseconds. *)
Definition Duration : Type := Z.

Definition Nanosecond : Duration := 1.
Definition Microsecond : Duration := 1000 * Nanosecond.
Definition Millisecond : Duration := 1000 * Microsecond.
Definition Second : Duration := 1000 * Millisecond.

Definition minDuration : Duration := - 2 ^ 63.
Definition maxDuration : Duration := 2 ^ 63 - 1.

Definition is_int64 (d : Z) : bool := (minDuration <=? d) && (d <=? maxDuration).

(** [func (d Duration) Seconds() float64]:
    [sec := d / Second; nsec := d % Second;
     return float64(sec) + float64(nsec)/1e9]. *)
Definition Seconds (d : Duration) : Float64.float64 :=
  let sec := Z.quot d Second in
  let nsec := Z.rem d Second in
  Float64.add (Float64.of_int sec)
              (Float64.div (Float64.of_int nsec) (Float64.of_int 1000000000)).

End time.

(** ** Packages [fmt] and [strings] *)

(** [fmt.Sprintf("%d", n)]. *)
Definition Sprintf_d (n : Z) : string := NilZero.string_of_int (Z.to_int n).

Module strings.

(** [strings.Join(elems, sep)]. *)
Fixpoint Join (elems : list string) (sep : string) : string :=
  match elems with
  | [] => ""
  | [e] => e
  | e :: rest => e +++ sep +++ Join rest sep
  end.

(** Does the byte [c] occur in [s]?  ([strings.IndexByte(s, c) >= 0].) *)
Fixpoint ContainsByte (s : string) (c : ascii) : bool :=
  match s with
  | EmptyString => false
  | String a s' => Ascii.eqb a c || ContainsByte s' c
  end.

(** [strings.HasPrefix(s, p)] and [strings.HasSuffix(s, p)]. *)
Definition HasPrefix (s p : string) : bool := String.prefix p s.

Definition HasSuffix (s p : string) : bool :=
  let n := String.length s in
  let k := String.length p in
  (k <=? n)%nat && String.eqb (String.substring (n - k) k s) p.

End strings.

(** ** [humanReadableDuration] (push.go, lines 284-317) *)

(** Lines 289-301: the whole seconds are split into hours, minutes and
    seconds.  Go's [/] and [%] on [int] truncate ([Z.quot], [Z.rem]). *)
Definition splitSeconds (total : Z) : Z * Z * Z :=
  let seconds := total in
  let minutes := 0 in
  let hours := 0 in
  if 60 <=? seconds then
    let minutes := Z.quot seconds 60 in
    let seconds := Z.rem seconds 60 in
    if 60 <=? minutes then
      let hours := Z.quot minutes 60 in
      let minutes := Z.rem minutes 60 in
      (hours, minutes, seconds)
    else (hours, minutes, seconds)
  else (hours, minutes, seconds).

(** Lines 303-314: one part per component that is greater than zero. *)
Definition durationParts (hms : Z * Z * Z) : list string :=
  let '(hours, minutes, seconds) := hms in
  let parts := [] in
  let parts := if 0 <? hours then parts ++ [Sprintf_d hours +++ " h"] else parts in
  let parts := if 0 <? minutes then parts ++ [Sprintf_d minutes +++ " min"] else parts in
  let parts := if 0 <? seconds then parts ++ [Sprintf_d seconds +++ " sec"] else parts in
  parts.

(** The components of a duration of at least one second, as line 289
    and the following compute them: [int(duration.Seconds())], split. *)
Definition durationComponents (duration : time.Duration) : Z * Z * Z :=
  splitSeconds (Float64.to_int (time.Seconds duration)).

Definition humanReadableDuration (duration : time.Duration) : string :=
  if duration <? time.Second then "less than a second"
  else strings.Join (durationParts (durationComponents duration)) " ".

Definition hoursOf (duration : time.Duration) : Z := fst (fst (durationComponents duration)).
Definition minutesOf (duration : time.Duration) : Z := snd (fst (durationComponents duration)).
Definition secondsOf (duration : time.Duration) : Z := snd (durationComponents duration).

(** ** Errors and the external packages *)

(** A Go [error] value, identified with its message; [nil] is [None]. *)
Definition error : Type := string.

(** The line feed written [\n] in the source's format strings. *)
Definition LF : string := String (ascii_of_nat 10) "".

Module cf.

(** Modelled from the spec: package [cf] is not among the sources.
    [cf.AppCleanupSetting] and [cf.OutputType] are the enumerations the
    settings are parsed into; they are integer types, since the source
    converts the constant [-1] to both.  Their constants are parameters
    of the section below. *)
Definition AppCleanupSetting : Type := Z.
Definition OutputType : Type := Z.

(** Modelled from the spec: [cf.PushReport], a value produced by the
    push routine and read here through its accessors only (elapsed time,
    per-phase durations, stack, buildpack, serialization).  Each field
    is what the method of that name returns. *)
Record PushReport : Type := {
  ElapsedTime : time.Duration;
  Stack : string;
  Buildpack : string;
  HasTimeDetails : bool;
  InitTime : time.Duration;
  CreatingTime : time.Duration;
  UploadingTime : time.Duration;
  StagingTime : time.Duration;
  StartingTime : time.Duration;
  ToJSON : string * option error;
  ToYAML : string * option error
}.

End cf.

(** [GonutAppPrefix] (line 42). *)
Definition GonutAppPrefix : string := "gonut".

(** ASCII upper-case test and the byte-wise lowering of
    [strings.ToLower]'s fast path ([c += 'a' - 'A']). *)
Definition isUpperByte (c : ascii) : bool :=
  let n := nat_of_ascii c in ((65 <=? n) && (n <=? 90))%nat.

Definition lowerByte (c : ascii) : ascii :=
  if isUpperByte c then ascii_of_nat (nat_of_ascii c + 32) else c.

Fixpoint isASCII (s : string) : bool :=
  match s with
  | EmptyString => true
  | String c s' => (nat_of_ascii c <? 128)%nat && isASCII s'
  end.

Fixpoint hasUpper (s : string) : bool :=
  match s with
  | EmptyString => false
  | String c s' => isUpperByte c || hasUpper s'
  end.

Fixpoint lowerBytes (s : string) : string :=
  match s with
  | EmptyString => EmptyString
  | String c s' => String (lowerByte c) (lowerBytes s')
  end.

(** What the program prints and which calls it makes, in order. *)
Inductive event (Directory : Type) : Type :=
| Call_mapDeleteSetting (deleteSetting : string)
| Call_mapOutputSetting (outputSetting : string)
| Call_RandomStringWithPrefix (prefix : string) (length : Z)
| Call_assetFunc (command : string)
| Call_PushApp (caption appName : string) (directory : Directory)
               (cleanupSetting : cf.AppCleanupSetting)
| Call_summaryPrintout (appCaption summarySetting : string)
                       (outputType : cf.OutputType)
| Out_Printf (text : string)
| Out_Println (text : string)
| Call_ExitGonut (reason : error).

Arguments Call_mapDeleteSetting {Directory}.
Arguments Call_mapOutputSetting {Directory}.
Arguments Call_RandomStringWithPrefix {Directory}.
Arguments Call_assetFunc {Directory}.
Arguments Call_PushApp {Directory}.
Arguments Call_summaryPrintout {Directory}.
Arguments Out_Printf {Directory}.
Arguments Out_Println {Directory}.
Arguments Call_ExitGonut {Directory}.

(** How a command's [Run] function ends: it returns, or the process is
    terminated. *)
Inductive outcome : Type :=
| Returned
| Exited (reason : error).

(** ** A stand-in for the collaborators

    One concrete choice of what the [push] command imports, small
    enough to run the model on: the world counts the names drawn so far,
    a directory is its label, the PHP assets are missing, and the
    platform accepts every push. *)

Module Demo.

Definition World : Type := nat.
Definition Directory : Type := string.

Definition Never : cf.AppCleanupSetting := 0.
Definition Always : cf.AppCleanupSetting := 1.
Definition OnSuccess : cf.AppCleanupSetting := 2.
Definition JSON : cf.OutputType := 0.
Definition YAML : cf.OutputType := 1.

Definition unicode_ToLower (s : string) : string := s.

Definition json_Indent (src prefix indent : string) : string * option error :=
  (src, None).

(** The prefix, filled up to [n] bytes with the letter the world picks. *)
Fixpoint fill (c : ascii) (k : nat) : string :=
  match k with
  | O => EmptyString
  | S k' => String c (fill c k')
  end.

Definition RandomStringWithPrefix (prefix : string) (n : Z) (w : World)
  : string * World :=
  (prefix +++ fill (ascii_of_nat (97 + Nat.modulo w 26))
                   (Z.to_nat n - String.length prefix),
   S w).

Definition assets (label : string) (w : World) : (Directory + error) * World :=
  (inl label, w).

Definition missingAssets (w : World) : (Directory + error) * World :=
  (inr "no assets bundled", w).

Definition report : cf.PushReport := {|
  cf.ElapsedTime := 90 * time.Second;
  cf.Stack := "cflinuxfs3";
  cf.Buildpack := "go_buildpack";
  cf.HasTimeDetails := true;
  cf.InitTime := 500 * time.Millisecond;
  cf.CreatingTime := 2 * time.Second;
  cf.UploadingTime := 7 * time.Second;
  cf.StagingTime := 61 * time.Second;
  cf.StartingTime := 19 * time.Second;
  cf.ToJSON := ("{}", None);
  cf.ToYAML := ("---", None)
|}.

(** A report that cannot be serialized. *)
Definition brokenReport : cf.PushReport := {|
  cf.ElapsedTime := 90 * time.Second;
  cf.Stack := "cflinuxfs3";
  cf.Buildpack := "go_buildpack";
  cf.HasTimeDetails := false;
  cf.InitTime := 0;
  cf.CreatingTime := 0;
  cf.UploadingTime := 0;
  cf.StagingTime := 0;
  cf.StartingTime := 0;
  cf.ToJSON := ("", Some "json: unsupported value");
  cf.ToYAML := ("", Some "yaml: unsupported value")
|}.

Definition PushApp (caption appName : string) (directory : Directory)
    (cleanupSetting : cf.AppCleanupSetting) (w : World)
  : (cf.PushReport + error) * World :=
  (inl report, w).

End Demo.

(** ** The [push] command *)

Section Push.

Set Default Proof Using "Type".

(** *** What the file imports and does not define *)

(** The constants of package [cf]. *)
Variables Always Never OnSuccess : cf.AppCleanupSetting.
Variables JSON YAML : cf.OutputType.

(** [strings.Map(unicode.ToLower, s)], the path [strings.ToLower] takes
    for a string with a byte outside ASCII. *)
Variable unicode_ToLower : string -> string.

(** [json.Indent(&buffer, src, prefix, indent)]: what the buffer holds
    afterwards, and the error. *)
Variable json_Indent : string -> string -> string -> string * option error.

(** The world outside the process (random source, platform), the type
    [files.Directory], and the collaborators that act on the world:
    [text.RandomStringWithPrefix(prefix, length)] and
    [cf.PushApp(caption, appName, directory, cleanupSetting)], which
    returns a report or an error. *)
Variable World : Type.
Variable Directory : Type.
Variable RandomStringWithPrefix : string -> Z -> World -> string * World.
Variable PushApp :
  string -> string -> Directory -> cf.AppCleanupSetting ->
  World -> (cf.PushReport + error) * World.

(** The asset functions of [assets.Provider]. *)
Variables GoSampleApp PythonSampleApp PHPSampleApp StaticfileSampleApp
          SwiftSampleApp NodeJSSampleApp RubySampleApp :
  World -> (Directory + error) * World.

(** The flag variables (lines 52-56), set once before a command runs. *)
Variables deleteSetting summarySetting outputSetting : string.

(** *** State: the world and the trace of calls and output *)

Record state : Type := { world : World; trace : list (event Directory) }.

Definition M (A : Type) : Type := state -> A * state.

Definition ret {A : Type} (a : A) : M A := fun st => (a, st).

Definition bind {A B : Type} (c : M A) (k : A -> M B) : M B :=
  fun st => let '(a, st') := c st in k a st'.

Notation "x <- c ;; k" := (bind c (fun x => k))
  (at level 61, c at next level, right associativity).
Notation "c ;; k" := (bind c (fun _ => k))
  (at level 61, right associativity).

(** The state with the events [es] appended to its trace. *)
Definition emit (es : list (event Directory)) (st : state) : state :=
  {| world := world st; trace := trace st ++ es |}.

Definition log (e : event Directory) : M unit :=
  fun st => (tt, emit [e] st).

Definition extern {A : Type} (f : World -> A * World) : M A :=
  fun st => let '(a, w) := f (world st) in
            (a, {| world := w; trace := trace st |}).

(** [bunt.Printf] and [bunt.Println]: the text handed to the terminal
    library, with the format already expanded. *)
Definition bunt_Printf (text : string) : M unit := log (Out_Printf text).
Definition bunt_Println (text : string) : M unit := log (Out_Println text).

(** *** [strings.ToLower] *)

Definition ToLower (s : string) : string :=
  if isASCII s then
    if negb (hasUpper s) then s else lowerBytes s
  else unicode_ToLower s.

(** *** The sample apps (lines 44-113) *)

Record sampleApp : Type := {
  caption : string;
  command : string;
  aliases : list string;
  appNamePrefix : string;
  assetFunc : World -> (Directory + error) * World
}.

Definition sampleApps : list sampleApp := [
  {| caption := "Golang"; command := "golang"; aliases := ["go"];
     appNamePrefix := GonutAppPrefix +++ "-golang-app-";
     assetFunc := GoSampleApp |};
  {| caption := "Python"; command := "python"; aliases := [];
     appNamePrefix := GonutAppPrefix +++ "-python-app-";
     assetFunc := PythonSampleApp |};
  {| caption := "PHP"; command := "php"; aliases := [];
     appNamePrefix := GonutAppPrefix +++ "-php-app-";
     assetFunc := PHPSampleApp |};
  {| caption := "Staticfile"; command := "staticfile"; aliases := ["static"];
     appNamePrefix := GonutAppPrefix +++ "-staticfile-app-";
     assetFunc := StaticfileSampleApp |};
  {| caption := "Swift"; command := "swift"; aliases := [];
     appNamePrefix := GonutAppPrefix +++ "-swift-app-";
     assetFunc := SwiftSampleApp |};
  {| caption := "NodeJS"; command := "nodejs"; aliases := ["node"];
     appNamePrefix := GonutAppPrefix +++ "-nodejs-app-";
     assetFunc := NodeJSSampleApp |};
  {| caption := "Ruby"; command := "ruby"; aliases := [];
     appNamePrefix := GonutAppPrefix +++ "-ruby-sinatra-app-";
     assetFunc := RubySampleApp |}
].

(** *** The setting mappers (lines 174-201) *)

Definition mapDeleteSetting (deleteSetting : string)
  : cf.AppCleanupSetting * option error :=
  if String.eqb deleteSetting "always" then (Always, None)
  else if String.eqb deleteSetting "never" then (Never, None)
  else if String.eqb deleteSetting "on-success" then (OnSuccess, None)
  else (-1, Some ("unsupported delete setting: " +++ deleteSetting)).

Definition mapOutputSetting (outputSetting : string)
  : cf.OutputType * option error :=
  let lowered := ToLower outputSetting in
  if String.eqb lowered "json" then (JSON, None)
  else if String.eqb lowered "yaml" then (YAML, None)
  else (-1, None).

(** *** [summaryPrintout] (lines 203-255) *)

Definition summaryPrintout (appCaption : string) (report : cf.PushReport)
    (summarySetting : string) (outputType : cf.OutputType) : M (option error) :=
  if String.eqb summarySetting "short" || String.eqb summarySetting "oneline" then
    bunt_Printf ("Successfully pushed *" +++ appCaption
                 +++ "* sample app in CadetBlue{"
                 +++ humanReadableDuration (cf.ElapsedTime report) +++ "}." +++ LF) ;;
    ret None
  else if String.eqb summarySetting "full" then
    if outputType =? JSON then
      let '(output, err) := cf.ToJSON report in
      match err with
      | Some e => ret (Some e)
      | None =>
          let '(buffer, indentError) := json_Indent output "" "   " in
          match indentError with
          | Some e => ret (Some e)
          | None => bunt_Println buffer ;; ret None
          end
      end
    else if outputType =? YAML then
      let '(output, err) := cf.ToYAML report in
      match err with
      | Some e => ret (Some e)
      | None => bunt_Println output ;; ret None
      end
    else
      bunt_Printf ("Successfully pushed *" +++ appCaption
                   +++ "* sample app in CadetBlue{"
                   +++ humanReadableDuration (cf.ElapsedTime report) +++ "}:" +++ LF) ;;
      bunt_Printf ("     DimGray{_stack:_} DarkSeaGreen{" +++ cf.Stack report +++ "}" +++ LF) ;;
      bunt_Printf (" DimGray{_buildpack:_} DarkSeaGreen{" +++ cf.Buildpack report +++ "}" +++ LF) ;;
      (if cf.HasTimeDetails report then
         bunt_Printf ("   DimGray{_ramp-up:_} SteelBlue{"
                      +++ humanReadableDuration (cf.InitTime report) +++ "}" +++ LF) ;;
         bunt_Printf ("  DimGray{_creating:_} SteelBlue{"
                      +++ humanReadableDuration (cf.CreatingTime report) +++ "}" +++ LF) ;;
         bunt_Printf (" DimGray{_uploading:_} SteelBlue{"
                      +++ humanReadableDuration (cf.UploadingTime report) +++ "}" +++ LF) ;;
         bunt_Printf ("   DimGray{_staging:_} SteelBlue{"
                      +++ humanReadableDuration (cf.StagingTime report) +++ "}" +++ LF) ;;
         bunt_Printf ("  DimGray{_starting:_} SteelBlue{"
                      +++ humanReadableDuration (cf.StartingTime report) +++ "}" +++ LF)
       else ret tt) ;;
      bunt_Printf LF ;;
      ret None
  else ret None.

(** The texts of the one-line summary and of the multi-line report, as
    the format strings of lines 207 and 239-249 expand. *)
Definition oneLineSummary (appCaption : string) (report : cf.PushReport) : string :=
  "Successfully pushed *" +++ appCaption +++ "* sample app in CadetBlue{"
  +++ humanReadableDuration (cf.ElapsedTime report) +++ "}." +++ LF.

Definition reportHeader (appCaption : string) (report : cf.PushReport)
  : list (event Directory) :=
  [ Out_Printf ("Successfully pushed *" +++ appCaption
                +++ "* sample app in CadetBlue{"
                +++ humanReadableDuration (cf.ElapsedTime report) +++ "}:" +++ LF);
    Out_Printf ("     DimGray{_stack:_} DarkSeaGreen{" +++ cf.Stack report +++ "}" +++ LF);
    Out_Printf (" DimGray{_buildpack:_} DarkSeaGreen{" +++ cf.Buildpack report +++ "}" +++ LF) ].

Definition reportTimings (report : cf.PushReport) : list (event Directory) :=
  [ Out_Printf ("   DimGray{_ramp-up:_} SteelBlue{"
                +++ humanReadableDuration (cf.InitTime report) +++ "}" +++ LF);
    Out_Printf ("  DimGray{_creating:_} SteelBlue{"
                +++ humanReadableDuration (cf.CreatingTime report) +++ "}" +++ LF);
    Out_Printf (" DimGray{_uploading:_} SteelBlue{"
                +++ humanReadableDuration (cf.UploadingTime report) +++ "}" +++ LF);
    Out_Printf ("   DimGray{_staging:_} SteelBlue{"
                +++ humanReadableDuration (cf.StagingTime report) +++ "}" +++ LF);
    Out_Printf ("  DimGray{_starting:_} SteelBlue{"
                +++ humanReadableDuration (cf.StartingTime report) +++ "}" +++ LF) ].

Definition humanReport (appCaption : string) (report : cf.PushReport)
  : list (event Directory) :=
  reportHeader appCaption report
  ++ (if cf.HasTimeDetails report then reportTimings report else [])
  ++ [Out_Printf LF].

(** The error of the JSON path (serialization, then re-indentation) and
    of the YAML path; [None] when the path succeeds. *)
Definition jsonFailure (report : cf.PushReport) : option error :=
  match snd (cf.ToJSON report) with
  | Some e => Some e
  | None => snd (json_Indent (fst (cf.ToJSON report)) "" "   ")
  end.

Definition yamlFailure (report : cf.PushReport) : option error :=
  snd (cf.ToYAML report).

(** What a successful re-indentation of the report's JSON prints. *)
Definition jsonRendering (report : cf.PushReport) : list (event Directory) :=
  [Out_Println (fst (json_Indent (fst (cf.ToJSON report)) "" "   "))].

Definition yamlRendering (report : cf.PushReport) : list (event Directory) :=
  [Out_Println (fst (cf.ToYAML report))].

(** The reading of "exactly one of structured JSON, structured YAML or
    the multi-line report is printed" that the properties below test:
    what a call at level "full" adds to the trace is one of the three
    renderings. *)
Definition printsOneRendering (appCaption : string) (report : cf.PushReport)
    (outputType : cf.OutputType) (st : state) : Prop :=
  let st' := snd (summaryPrintout appCaption report "full" outputType st) in
  trace st' = trace st ++ jsonRendering report \/
  trace st' = trace st ++ yamlRendering report \/
  trace st' = trace st ++ humanReport appCaption report.

(** *** [runSampleAppPush] (lines 257-282) *)

Definition runSampleAppPush (app : sampleApp) : M (option error) :=
  log (Call_mapDeleteSetting deleteSetting) ;;
  let '(cleanupSetting, err) := mapDeleteSetting deleteSetting in
  match err with
  | Some e => ret (Some e)
  | None =>
      log (Call_mapOutputSetting outputSetting) ;;
      let '(outputType, err) := mapOutputSetting outputSetting in
      match err with
      | Some e => ret (Some e)
      | None =>
          log (Call_RandomStringWithPrefix (appNamePrefix app) 32) ;;
          appName <- extern (RandomStringWithPrefix (appNamePrefix app) 32) ;;
          log (Call_assetFunc (command app)) ;;
          directory <- extern (assetFunc app) ;;
          match directory with
          | inr e => ret (Some e)
          | inl directory =>
              log (Call_PushApp (caption app) appName directory cleanupSetting) ;;
              report <- extern (PushApp (caption app) appName directory cleanupSetting) ;;
              match report with
              | inr e => ret (Some e)
              | inl report =>
                  log (Call_summaryPrintout (caption app) summarySetting outputType) ;;
                  summaryPrintout (caption app) report summarySetting outputType
              end
          end
      end
  end.

(** *** The [all] command (lines 139-150) *)

(** Modelled from the spec: [ExitGonut] is defined outside this file;
    the spec calls it the process-wide termination routine, through
    which every error ends the process at once with a message.  Nothing
    after the call runs. *)
Definition ExitGonut (reason : error) : M outcome :=
  log (Call_ExitGonut reason) ;; ret (Exited reason).

(** [for _, sampleApp := range apps { if err := runSampleAppPush(sampleApp);
    err != nil { ExitGonut(err) } }]. *)
Fixpoint pushEach (apps : list sampleApp) : M outcome :=
  match apps with
  | [] => ret Returned
  | sampleApp :: rest =>
      err <- runSampleAppPush sampleApp ;;
      match err with
      | Some e => ExitGonut e
      | None => pushEach rest
      end
  end.

Definition pushAll : M outcome := pushEach sampleApps.

(** The state after the apps of a list have been pushed one after the
    other, in the order of the list, each push returning nil; [None]
    when one of them returns an error. *)
Fixpoint pushedInOrder (apps : list sampleApp) (st : state) : option state :=
  match apps with
  | [] => Some st
  | app :: rest =>
      match runSampleAppPush app st with
      | (None, st') => pushedInOrder rest st'
      | (Some _, _) => None
      end
  end.

(** The calls of one push, in the order of claim and source. *)
Definition callsBeforeAsset (app : sampleApp) : list (event Directory) :=
  [ Call_mapDeleteSetting deleteSetting;
    Call_mapOutputSetting outputSetting;
    Call_RandomStringWithPrefix (appNamePrefix app) 32;
    Call_assetFunc (command app) ].

Definition callsBeforePush (app : sampleApp) (appName : string)
    (directory : Directory) (cleanupSetting : cf.AppCleanupSetting)
  : list (event Directory) :=
  callsBeforeAsset app
  ++ [Call_PushApp (caption app) appName directory cleanupSetting].

Definition callsBeforeSummary (app : sampleApp) (appName : string)
    (directory : Directory) (cleanupSetting : cf.AppCleanupSetting)
  : list (event Directory) :=
  callsBeforePush app appName directory cleanupSetting
  ++ [Call_summaryPrintout (caption app) summarySetting
        (fst (mapOutputSetting outputSetting))].

(** Is the event a line of output? *)
Definition isOutput (ev : event Directory) : bool :=
  match ev with
  | Out_Printf _ | Out_Println _ => true
  | _ => false
  end.

(** *** [lookUpSampleAppByName] and [genericCommandFunc] (lines 153-172) *)

(** The first entry of [sampleApps] whose command is [name]; [None] is
    the nil pointer. *)
Definition lookUpSampleAppByName (name : string) : option sampleApp :=
  List.find (fun sampleApp => String.eqb (command sampleApp) name) sampleApps.

(** The functions [init] registers as [Run] of a command: the generic
    one and the closure of the "all" command. *)
Inductive runFunc : Type :=
| Run_genericCommandFunc
| Run_all.

(** The fields of [cobra.Command] the file sets. *)
Record Command : Type := {
  Use : string;
  Aliases : list string;
  Short : string;
  Long : string;
  Run : option runFunc
}.

Definition genericCommandFunc (cmd : Command) (args : list string) : M outcome :=
  match lookUpSampleAppByName (Use cmd) with
  | None => ExitGonut "failed to detect which sample app is to be tested"
  | Some sampleApp =>
      err <- runSampleAppPush sampleApp ;;
      match err with
      | Some e => ExitGonut e
      | None => ret Returned
      end
  end.

(** [cmd.Run(cmd, args)], as cobra calls it for the command it selected;
    a command without [Run] runs nothing. *)
Definition execute (cmd : Command) (args : list string) : M outcome :=
  match Run cmd with
  | Some Run_genericCommandFunc => genericCommandFunc cmd args
  | Some Run_all => pushAll
  | None => ret Returned
  end.

(** *** [pushCmd] and [init] (lines 115-151) *)

Definition pushCmd : Command := {|
  Use := "push";
  Aliases := [];
  Short := "Push a sample app to Cloud Foundry";
  Long := "Use one of the sub-commands to select a sample app of a list of programming languages to be pushed to a Cloud Foundry instance.";
  Run := None
|}.

(** A persistent string flag, as [StringVarP] declares it. *)
Record stringFlag : Type := {
  flagName : string;
  flagShorthand : string;
  flagDefault : string;
  flagUsage : string
}.

(** Lines 125-127: the flags behind [deleteSetting], [summarySetting]
    and [outputSetting], in this order. *)
Definition pushFlags : list stringFlag := [
  {| flagName := "delete"; flagShorthand := "d"; flagDefault := "always";
     flagUsage := "Delete application after push: always, never, on-success" |};
  {| flagName := "summary"; flagShorthand := "s"; flagDefault := "short";
     flagUsage := "Push summary detail level: quiet, short, full" |};
  {| flagName := "output"; flagShorthand := "o"; flagDefault := "";
     flagUsage := "Push summary type: json | yaml" |}
].

(** Lines 129-137: the command [init] adds for a sample app. *)
Definition sampleAppCommand (app : sampleApp) : Command := {|
  Use := command app;
  Aliases := aliases app;
  Short := "Push a " +++ caption app +++ " sample app to Cloud Foundry";
  Long := "Push a " +++ caption app
          +++ " sample app to Cloud Foundry. The application will be deleted after it was pushed successfully.";
  Run := Some Run_genericCommandFunc
|}.

(** Lines 139-150. *)
Definition allCommand : Command := {|
  Use := "all";
  Aliases := [];
  Short := "Pushes all available sample apps to Cloud Foundry";
  Long := "Pushes all available sample apps to Cloud Foundry. Each application will be deleted after it was pushed successfully.";
  Run := Some Run_all
|}.

(** The sub-commands of [pushCmd] once [init] has run, in the order of
    the [AddCommand] calls. *)
Definition pushSubcommands : list Command :=
  map sampleAppCommand sampleApps ++ [allCommand].

(** Every name a sub-command answers to: its [Use], then its aliases. *)
Definition commandNames (cmd : Command) : list string := Use cmd :: Aliases cmd.

(** One push as a command runs it: the process is terminated with the
    push's error, or the command returns. *)
Definition pushOrExit (app : sampleApp) : M outcome :=
  err <- runSampleAppPush app ;;
  match err with
  | Some e => ExitGonut e
  | None => ret Returned
  end.

(** The captions [cf.PushApp] was called with, in the order of the
    calls. *)
Definition pushedCaptions (tr : list (event Directory)) : list string :=
  flat_map (fun ev => match ev with
                      | Call_PushApp c _ _ _ => [c]
                      | _ => []
                      end) tr.

(** The value of the flag [name] when the command line does not set it. *)
Definition flagDefaultOf (name : string) : option string :=
  option_map flagDefault
    (List.find (fun f => String.eqb (flagName f) name) pushFlags).

(** ** Properties *)

(** Drop from the context what the goal does not mention, so that a
    decision procedure sees the goal's own variables only. *)
Ltac tidy :=
  repeat match goal with
         | x : ?T |- _ =>
             lazymatch type of T with
             | Prop => fail
             | _ => clear x
             end
         end.

Ltac prop := tidy; tauto.
Ltac prop_eq := tidy; intuition congruence.

(** *** Strings *)

Lemma ContainsByte_append (a b : string) (c : ascii) :
  strings.ContainsByte (a +++ b) c
  = strings.ContainsByte a c || strings.ContainsByte b c.
Proof.
  induction a as [|x a IH]; simpl; [reflexivity|].
  rewrite IH. apply orb_assoc.
Qed.

Lemma ContainsByte_Join (parts : list string) (sep : string) (c : ascii) :
  strings.ContainsByte sep c = false ->
  Forall (fun p => strings.ContainsByte p c = false) parts ->
  strings.ContainsByte (strings.Join parts sep) c = false.
Proof.
  intros Hsep Hall. induction Hall as [|p rest Hp Hrest IH]; [reflexivity|].
  destruct rest as [|q rest]; [exact Hp|].
  change (strings.Join (p :: q :: rest) sep)
    with (p +++ sep +++ strings.Join (q :: rest) sep).
  rewrite !ContainsByte_append, Hp, Hsep, IH. reflexivity.
Qed.

(** A byte that is no decimal digit and no minus sign. *)
Definition notNumeric (c : ascii) : bool :=
  negb (strings.ContainsByte "0123456789-" c).

Lemma string_of_uint_numeric (u : Decimal.uint) (c : ascii) :
  notNumeric c = true ->
  strings.ContainsByte (NilEmpty.string_of_uint u) c = false.
Proof.
  unfold notNumeric. intros H. apply negb_true_iff in H. simpl in H.
  repeat (apply orb_false_iff in H; destruct H as [? H]).
  induction u; simpl; try rewrite IHu; try assumption;
    rewrite ?orb_false_r; assumption.
Qed.

Lemma string_of_uint0_numeric (u : Decimal.uint) (c : ascii) :
  notNumeric c = true ->
  strings.ContainsByte (NilZero.string_of_uint u) c = false.
Proof.
  intros H. destruct u;
    try exact (string_of_uint_numeric (Decimal.D0 Decimal.Nil) c H);
    apply (string_of_uint_numeric _ c H).
Qed.

Lemma Sprintf_d_numeric (n : Z) (c : ascii) :
  notNumeric c = true -> strings.ContainsByte (Sprintf_d n) c = false.
Proof.
  intros H. unfold Sprintf_d.
  destruct n as [|p|p]; cbn [Z.to_int NilZero.string_of_int].
  - apply string_of_uint0_numeric, H.
  - apply string_of_uint0_numeric, H.
  - cbn [strings.ContainsByte]. rewrite (string_of_uint0_numeric _ c H).
    unfold notNumeric in H. apply negb_true_iff in H.
    cbn [strings.ContainsByte] in H.
    do 10 (apply orb_false_iff in H; destruct H as [_ H]).
    apply orb_false_iff in H. rewrite (proj1 H). reflexivity.
Qed.

(** *** float64: the rounding in [Duration.Seconds]

    [SpecFloat] rounds by shifting the mantissa right ([shr_1]) while
    keeping a round and a sticky bit.  The facts below follow the
    mantissa through [float64(sec) + float64(nsec)/1e9]: both
    conversions are exact, the quotient is a float below 1, and the sum
    is rounded to a float between [sec] and [sec + 1]. *)

(** The number of binary digits of a positive number. *)
Lemma digits2_pos_bounds (p : positive) :
  2 ^ (Zpos (digits2_pos p) - 1) <= Zpos p < 2 ^ Zpos (digits2_pos p).
Proof.
  induction p as [p IH|p IH|]; cbn [digits2_pos].
  - rewrite Pos2Z.inj_succ.
    replace (Z.succ (Zpos (digits2_pos p)) - 1) with (Z.succ (Zpos (digits2_pos p) - 1)) by lia.
    rewrite !Z.pow_succ_r by lia. lia.
  - rewrite Pos2Z.inj_succ.
    replace (Z.succ (Zpos (digits2_pos p)) - 1) with (Z.succ (Zpos (digits2_pos p) - 1)) by lia.
    rewrite !Z.pow_succ_r by lia. lia.
  - cbn. lia.
Qed.

Lemma digits2_pos_unique (p : positive) (k : Z) :
  2 ^ (k - 1) <= Zpos p < 2 ^ k -> Zpos (digits2_pos p) = k.
Proof.
  intros [Hlo Hhi]. pose proof (digits2_pos_bounds p) as [Hlo' Hhi'].
  assert (0 < k).
  { destruct (Z.ltb_spec 0 k); [assumption|].
    exfalso. assert (2 ^ k <= 2 ^ 0) by (apply Z.pow_le_mono_r; lia).
    change (2 ^ 0) with 1 in *. lia. }
  set (d := Zpos (digits2_pos p)) in *.
  destruct (Z.lt_trichotomy d k) as [Hlt|[Heq|Hgt]]; [exfalso|assumption|exfalso].
  - assert (2 ^ d <= 2 ^ (k - 1)) by (apply Z.pow_le_mono_r; lia). lia.
  - assert (2 ^ k <= 2 ^ (d - 1)) by (apply Z.pow_le_mono_r; lia). lia.
Qed.

(** A right shift halves the mantissa. *)
Lemma shr_1_m (mrs : shr_record) :
  0 <= shr_m mrs -> shr_m (shr_1 mrs) = shr_m mrs / 2 /\ 0 <= shr_m (shr_1 mrs).
Proof.
  destruct mrs as [m r s]. cbn [shr_m]. intros Hm.
  destruct m as [|[p|p|]|p]; cbn [shr_1 shr_m]; try lia.
  all: split; try lia; try reflexivity.
  - rewrite Pos2Z.inj_xI. apply Z.div_unique with (r := 1); lia.
  - rewrite Pos2Z.inj_xO. apply Z.div_unique with (r := 0); lia.
Qed.

Lemma iter_pos_shr_1_m (n : positive) (mrs : shr_record) :
  0 <= shr_m mrs ->
  shr_m (iter_pos shr_1 n mrs) = shr_m mrs / 2 ^ Zpos n /\
  0 <= shr_m (iter_pos shr_1 n mrs).
Proof.
  revert mrs. induction n as [n IH|n IH|]; intros mrs Hm; cbn [iter_pos];
    try assert (Hp : 0 < 2 ^ Zpos n) by (apply Z.pow_pos_nonneg; lia).
  - destruct (shr_1_m mrs Hm) as [E1 P1].
    destruct (IH _ P1) as [E2 P2]. destruct (IH _ P2) as [E3 P3].
    split; [|assumption]. rewrite E3, E2, E1.
    rewrite !Z.div_div by lia.
    rewrite <- Z.pow_add_r by lia. change 2 with (2 ^ 1) at 1.
    rewrite <- Z.pow_add_r by lia. f_equal. f_equal. lia.
  - destruct (IH _ Hm) as [E2 P2]. destruct (IH _ P2) as [E3 P3].
    split; [|assumption]. rewrite E3, E2.
    rewrite Z.div_div by lia.
    rewrite <- Z.pow_add_r by lia. f_equal. f_equal. lia.
  - destruct (shr_1_m mrs Hm) as [E1 P1]. split; [|assumption].
    rewrite E1. reflexivity.
Qed.

Lemma round_nearest_even_bounds (m : Z) (l : location) :
  m <= round_nearest_even m l <= m + 1.
Proof.
  unfold round_nearest_even.
  destruct l as [|[| |]]; try destruct (Z.even m); lia.
Qed.

(** The round bit after [n] shifts is bit [n - 1] of the mantissa. *)
Lemma shr_1_r (mrs : shr_record) :
  0 <= shr_m mrs -> shr_r (shr_1 mrs) = Z.odd (shr_m mrs).
Proof.
  destruct mrs as [m r s]. cbn [shr_m]. intros Hm.
  destruct m as [|[p|p|]|p]; try lia; reflexivity.
Qed.

Lemma iter_pos_shr_1_r (n : positive) (mrs : shr_record) :
  0 <= shr_m mrs ->
  shr_r (iter_pos shr_1 n mrs) = Z.odd (shr_m mrs / 2 ^ (Zpos n - 1)).
Proof.
  revert mrs. induction n as [n IH|n IH|]; intros mrs Hm; cbn [iter_pos];
    try assert (Hp : 0 < 2 ^ Zpos n) by (apply Z.pow_pos_nonneg; lia);
    try assert (Hp' : 0 < 2 ^ (Zpos n - 1)) by (apply Z.pow_pos_nonneg; lia).
  - destruct (shr_1_m mrs Hm) as [E1 P1].
    destruct (iter_pos_shr_1_m n _ P1) as [E2 P2].
    rewrite (IH _ P2), E2, E1.
    rewrite !Z.div_div by lia. f_equal. f_equal.
    change 2 with (2 ^ 1) at 1. rewrite <- !Z.pow_add_r by lia. f_equal. lia.
  - destruct (iter_pos_shr_1_m n _ Hm) as [E2 P2].
    rewrite (IH _ P2), E2.
    rewrite !Z.div_div by lia. f_equal. f_equal.
    rewrite <- !Z.pow_add_r by lia. f_equal. lia.
  - rewrite shr_1_r by assumption. change (2 ^ (1 - 1)) with 1.
    rewrite Z.div_1_r. reflexivity.
Qed.

Lemma round_nearest_even_up (mrs : shr_record) :
  round_nearest_even (shr_m mrs) (loc_of_shr_record mrs) <> shr_m mrs ->
  shr_r mrs = true.
Proof.
  destruct mrs as [m [|] [|]]; cbn; intros H; try reflexivity; congruence.
Qed.

(** Rounding an exact mantissa that loses [n >= 1] bits errs by at most
    half a unit of the last place kept. *)
Lemma round_half (m : Z) (n : positive) (mrs : shr_record) :
  0 <= m -> mrs = iter_pos shr_1 n (shr_record_of_loc m loc_Exact) ->
  2 * (round_nearest_even (shr_m mrs) (loc_of_shr_record mrs) * 2 ^ Zpos n)
  <= 2 * m + 2 ^ Zpos n.
Proof.
  intros Hm ->.
  set (mrs0 := shr_record_of_loc m loc_Exact).
  assert (Hm0 : shr_m mrs0 = m) by reflexivity.
  destruct (iter_pos_shr_1_m n mrs0) as [E P]; [rewrite Hm0; lia|].
  pose proof (iter_pos_shr_1_r n mrs0 ltac:(rewrite Hm0; lia)) as R.
  rewrite Hm0 in E, R.
  set (mrs := iter_pos shr_1 n mrs0) in *.
  assert (Hp : 0 < 2 ^ Zpos n) by (apply Z.pow_pos_nonneg; lia).
  assert (Hp' : 0 < 2 ^ (Zpos n - 1)) by (apply Z.pow_pos_nonneg; lia).
  assert (E2 : 2 ^ Zpos n = 2 * 2 ^ (Zpos n - 1)).
  { rewrite <- Z.pow_succ_r by lia. f_equal. lia. }
  pose proof (Z.mul_div_le m (2 ^ Zpos n) Hp) as Hfloor.
  pose proof (round_nearest_even_bounds (shr_m mrs) (loc_of_shr_record mrs)) as Hb.
  destruct (Z.eq_dec (round_nearest_even (shr_m mrs) (loc_of_shr_record mrs))
                     (shr_m mrs)) as [Heq|Hne].
  - rewrite Heq, E. lia.
  - assert (Hup : round_nearest_even (shr_m mrs) (loc_of_shr_record mrs)
                  = m / 2 ^ Zpos n + 1) by lia.
    apply round_nearest_even_up in Hne. rewrite R in Hne.
    rewrite Hup.
    (* m / 2^(n-1) is odd: m >= (2k+1) 2^(n-1) with k = m / 2^n *)
    set (a := m / 2 ^ (Zpos n - 1)) in *.
    assert (Ha : a * 2 ^ (Zpos n - 1) <= m)
      by (unfold a; rewrite Z.mul_comm; apply Z.mul_div_le; lia).
    assert (Hk : m / 2 ^ Zpos n = a / 2).
    { unfold a. rewrite Z.div_div by lia. f_equal. rewrite E2. lia. }
    rewrite Hk.
    rewrite (Zodd_bool_iff a) in Hne. apply Zodd_ex in Hne as [k Hk2].
    assert (a / 2 = k) by (symmetry; apply Z.div_unique with (r := 1); lia).
    nia.
Qed.

(** In the normal range the exponent of a float with [d] digits at
    exponent [e] is [d + e - 53]. *)
Lemma fexp_normal (e : Z) : -1021 <= e -> fexp 53 1024 e = e - 53.
Proof. intros H. unfold fexp, emin. lia. Qed.

Lemma shr_fexp_normal (p : positive) (e : Z) (l : location) :
  let d := Zpos (digits2_pos p) in
  53 <= d -> -1021 <= d + e ->
  snd (shr_fexp 53 1024 (Zpos p) e l) = e + (d - 53) /\
  shr_m (fst (shr_fexp 53 1024 (Zpos p) e l)) = Zpos p / 2 ^ (d - 53).
Proof.
  intros d Hd He. unfold shr_fexp. cbn [Zdigits2]. fold d.
  rewrite fexp_normal by lia.
  replace (d + e - 53 - e) with (d - 53) by lia.
  assert (Hm : shr_m (shr_record_of_loc (Zpos p) l) = Zpos p)
    by (destruct l as [|[| |]]; reflexivity).
  unfold shr. destruct (d - 53) as [|n|n] eqn:Hn; [| |lia]; cbn [fst snd].
  - rewrite Hm, Z.div_1_r. split; [lia | reflexivity].
  - split; [reflexivity|].
    destruct (iter_pos_shr_1_m n (shr_record_of_loc (Zpos p) l)) as [E _];
      [rewrite Hm; lia|].
    rewrite E, Hm. reflexivity.
Qed.

Lemma shr_fexp_iter (p : positive) (e : Z) (l : location) (n : positive) :
  let d := Zpos (digits2_pos p) in
  -1021 <= d + e -> d - 53 = Zpos n ->
  fst (shr_fexp 53 1024 (Zpos p) e l)
  = iter_pos shr_1 n (shr_record_of_loc (Zpos p) l).
Proof.
  intros d He Hn. unfold shr_fexp. cbn [Zdigits2]. fold d.
  rewrite fexp_normal by lia.
  replace (d + e - 53 - e) with (d - 53) by lia.
  rewrite Hn. reflexivity.
Qed.

Lemma div_pow2_normal (m d : Z) :
  53 <= d -> 2 ^ (d - 1) <= m < 2 ^ d ->
  2 ^ 52 <= m / 2 ^ (d - 53) < 2 ^ 53.
Proof.
  intros Hd [Hlo Hhi].
  assert (Hp : 0 < 2 ^ (d - 53)) by (apply Z.pow_pos_nonneg; lia).
  assert (E1 : 2 ^ (d - 1) = 2 ^ 52 * 2 ^ (d - 53))
    by (rewrite <- Z.pow_add_r by lia; f_equal; lia).
  assert (E2 : 2 ^ d = 2 ^ 53 * 2 ^ (d - 53))
    by (rewrite <- Z.pow_add_r by lia; f_equal; lia).
  split.
  - apply Z.div_le_lower_bound; lia.
  - apply Z.div_lt_upper_bound; lia.
Qed.

(** Rounding a mantissa of at least 53 digits: the result is a normal
    float, its mantissa the truncated one or the next. *)
Lemma binary_round_aux_normal (p : positive) (ex : Z) (lx : location) :
  let d := Zpos (digits2_pos p) in
  let e1 := ex + (d - 53) in
  53 <= d -> -1021 <= d + ex -> d + ex <= 1023 ->
  exists m2 e2 rne,
    binary_round_aux 53 1024 false (Zpos p) ex lx = S754_finite false m2 e2 /\
    e1 <= e2 <= e1 + 1 /\
    2 ^ 52 <= Zpos m2 < 2 ^ 53 /\
    Zpos p / 2 ^ (d - 53) <= rne <= Zpos p / 2 ^ (d - 53) + 1 /\
    rne = Zpos m2 * 2 ^ (e2 - e1) /\
    (lx = loc_Exact -> 0 < d - 53 ->
     2 * (rne * 2 ^ (d - 53)) <= 2 * Zpos p + 2 ^ (d - 53)).
Proof.
  intros d e1 Hd Hlo Hhi. unfold binary_round_aux.
  destruct (shr_fexp_normal p ex lx Hd Hlo) as [He' Hm'].
  assert (Hhalf : lx = loc_Exact -> 0 < d - 53 ->
            2 * (round_nearest_even
                   (shr_m (fst (shr_fexp 53 1024 (Zpos p) ex lx)))
                   (loc_of_shr_record (fst (shr_fexp 53 1024 (Zpos p) ex lx)))
                 * 2 ^ (d - 53))
            <= 2 * Zpos p + 2 ^ (d - 53)).
  { intros -> Hn. destruct (d - 53) as [|n|n] eqn:En; try lia.
    apply round_half; [lia|].
    apply shr_fexp_iter; [exact Hlo | exact En]. }
  destruct (shr_fexp 53 1024 (Zpos p) ex lx) as [mrs' e'].
  cbn [fst snd] in He', Hm', Hhalf. fold d in He', Hm'. fold e1 in He'. subst e'.
  pose proof (div_pow2_normal (Zpos p) d Hd (digits2_pos_bounds p)) as Hm1.
  rewrite <- Hm' in Hm1.
  pose proof (round_nearest_even_bounds (shr_m mrs') (loc_of_shr_record mrs')) as Hr.
  set (rne := round_nearest_even (shr_m mrs') (loc_of_shr_record mrs')) in *.
  assert (Hpos : 0 < rne) by lia.
  destruct rne as [|r|r] eqn:Er; try lia.
  destruct (Z.ltb_spec (Zpos r) (2 ^ 53)) as [Hlt|Hge].
  - assert (Hdr : Zpos (digits2_pos r) = 53)
      by (apply digits2_pos_unique; change (53 - 1) with 52; lia).
    destruct (shr_fexp_normal r e1 loc_Exact) as [He'' Hm'']; [lia | lia |].
    destruct (shr_fexp 53 1024 (Zpos r) e1 loc_Exact) as [mrs'' e''].
    cbn [fst snd] in He'', Hm''. rewrite Hdr in He'', Hm''.
    change (53 - 53) with 0 in *. rewrite Z.div_1_r in Hm''.
    rewrite Hm''. 
    destruct (Z.leb_spec e'' (1024 - 53)) as [_|Hbad]; [|lia].
    exists r, e'', (Zpos r). split; [reflexivity|].
    split; [lia|]. split; [lia|]. split; [rewrite <- Hm'; lia|].
    split; [replace (e'' - e1) with 0 by lia; lia | exact Hhalf].
  - assert (Heq : Zpos r = 2 ^ 53) by lia.
    assert (Hdr : Zpos (digits2_pos r) = 54)
      by (apply digits2_pos_unique; rewrite Heq; change (54 - 1) with 53;
          split; [lia | apply Z.pow_lt_mono_r; lia]).
    destruct (shr_fexp_normal r e1 loc_Exact) as [He'' Hm'']; [lia | lia |].
    destruct (shr_fexp 53 1024 (Zpos r) e1 loc_Exact) as [mrs'' e''].
    cbn [fst snd] in He'', Hm''. rewrite Hdr in He'', Hm''.
    change (54 - 53) with 1 in *. rewrite Heq in Hm''.
    change (2 ^ 53 / 2 ^ 1) with (Zpos (Z.to_pos (2 ^ 52))) in Hm''.
    rewrite Hm''.
    destruct (Z.leb_spec e'' (1024 - 53)) as [_|Hbad]; [|lia].
    exists (Z.to_pos (2 ^ 52)), e'', (Zpos r). split; [reflexivity|].
    split; [lia|]. split; [vm_compute; split; [discriminate | reflexivity]|].
    split; [rewrite <- Hm'; lia|].
    split; [replace (e'' - e1) with 1 by lia; rewrite Heq; reflexivity | exact Hhalf].
Qed.

(** A mantissa of exactly 53 digits is kept as it is. *)
Lemma shr_fexp_exact (p : positive) (e : Z) :
  Zpos (digits2_pos p) = 53 -> -1021 <= 53 + e ->
  shr_fexp 53 1024 (Zpos p) e loc_Exact
  = ({| shr_m := Zpos p; shr_r := false; shr_s := false |}, e).
Proof.
  intros Hd He. unfold shr_fexp. cbn [Zdigits2]. rewrite Hd.
  rewrite fexp_normal by lia.
  replace (53 + e - 53 - e) with 0 by lia. reflexivity.
Qed.

Lemma binary_round_aux_exact (p : positive) (e : Z) :
  Zpos (digits2_pos p) = 53 -> -1021 <= 53 + e -> e <= 971 ->
  binary_round_aux 53 1024 false (Zpos p) e loc_Exact = S754_finite false p e.
Proof.
  intros Hd Hlo Hhi. unfold binary_round_aux.
  rewrite (shr_fexp_exact p e Hd Hlo).
  cbn [shr_m loc_of_shr_record round_nearest_even].
  rewrite (shr_fexp_exact p e Hd Hlo). cbn [shr_m].
  destruct (Z.leb_spec e (1024 - 53)); [reflexivity | lia].
Qed.

Lemma iter_xO_value (p k : positive) :
  Zpos (Pos.iter xO p k) = Zpos p * 2 ^ Zpos k.
Proof.
  induction k as [|k IH] using Pos.peano_ind.
  - cbn [Pos.iter]. rewrite Pos2Z.inj_xO. change (2 ^ 1) with 2. lia.
  - rewrite Pos.iter_succ, Pos2Z.inj_xO, IH, Pos2Z.inj_succ.
    rewrite Z.pow_succ_r by lia. lia.
Qed.

(** [float64(n)] is exact for 0 < n < 2^53. *)
Lemma of_int_exact (n : Z) :
  0 < n < 2 ^ 53 ->
  exists m e,
    Float64.of_int n = S754_finite false m e /\
    -52 <= e <= 0 /\
    2 ^ 52 <= Zpos m < 2 ^ 53 /\
    Zpos m = n * 2 ^ (- e).
Proof.
  intros [Hpos Hlt]. destruct n as [|p|p]; try lia.
  unfold Float64.of_int, Float64.prec, Float64.emax, binary_normalize, binary_round.
  pose proof (digits2_pos_bounds p) as Hb.
  set (d := Zpos (digits2_pos p)) in *.
  assert (Hd : 1 <= d <= 53).
  { split; [unfold d; lia|].
    destruct (Z.leb_spec d 53); [assumption|].
    assert (2 ^ 53 <= 2 ^ (d - 1)) by (apply Z.pow_le_mono_r; lia). lia. }
  rewrite Z.add_0_r, fexp_normal by lia.
  unfold shl_align. rewrite Z.sub_0_r.
  destruct (d - 53) as [|k|k] eqn:Hk; try lia.
  - assert (d = 53) by lia.
    rewrite binary_round_aux_exact by (fold d; lia).
    exists p, 0. split; [reflexivity|]. change (- 0) with 0. 
    replace (d - 1) with 52 in Hb by lia. replace d with 53 in Hb by lia.
    change (2 ^ 0) with 1. lia.
  - assert (Hv := iter_xO_value p k).
    assert (Hk' : Zpos k = 53 - d) by lia.
    assert (E1 : 2 ^ 52 = 2 ^ (d - 1) * 2 ^ Zpos k)
      by (rewrite <- Z.pow_add_r by lia; f_equal; lia).
    assert (E2 : 2 ^ 53 = 2 ^ d * 2 ^ Zpos k)
      by (rewrite <- Z.pow_add_r by lia; f_equal; lia).
    assert (Hp : 0 < 2 ^ Zpos k) by (apply Z.pow_pos_nonneg; lia).
    assert (Hb' : 2 ^ 52 <= Zpos (Pos.iter xO p k) < 2 ^ 53) by (rewrite Hv; nia).
    rewrite binary_round_aux_exact;
      [| apply digits2_pos_unique; change (53 - 1) with 52; exact Hb' | lia | lia].
    exists (Pos.iter xO p k), (Z.neg k). split; [reflexivity|].
    split; [lia|]. split; [exact Hb'|].
    rewrite Hv. reflexivity.
Qed.

Lemma of_int_1e9 :
  Float64.of_int 1000000000 = S754_finite false 8388608000000000 (-23).
Proof. vm_compute. reflexivity. Qed.

Lemma SFdiv_core_normal (m1 : positive) (e1 : Z) :
  Zpos (digits2_pos m1) = 53 -> -52 <= e1 <= 0 ->
  exists l,
    SFdiv_core_binary 53 1024 (Zpos m1) e1 8388608000000000 (-23)
    = (Zpos m1 * 2 ^ 53 / 8388608000000000, e1 - 30, l).
Proof.
  intros Hd He. unfold SFdiv_core_binary. cbn [Zdigits2]. rewrite Hd.
  change (Zpos (digits2_pos 8388608000000000)) with 53.
  replace (53 + e1 - (53 + -23)) with (e1 + 23) by lia.
  rewrite fexp_normal by lia.
  replace (Z.min (e1 + 23 - 53) (e1 - -23)) with (e1 - 30) by lia.
  replace (e1 - -23 - (e1 - 30)) with 53 by lia.
  rewrite Z.shiftl_mul_pow2 by lia.
  unfold Z.div.
  destruct (Z.div_eucl (Zpos m1 * 2 ^ 53) 8388608000000000) as [q r].
  eexists. reflexivity.
Qed.

(** The fraction [float64(nsec)/1e9] of a nanosecond count below one
    second is a float below 1. *)
Lemma div_fraction (r : Z) :
  0 < r < 1000000000 ->
  exists m e,
    Float64.div (Float64.of_int r) (Float64.of_int 1000000000)
    = S754_finite false m e /\
    -82 <= e /\ 2 ^ 52 <= Zpos m < 2 ^ 53 /\ Zpos m < 2 ^ (- e) /\
    Zpos m * 1000000000 <= r * 2 ^ (- e) + 1000000000.
Proof.
  intros Hr.
  destruct (of_int_exact r) as (mr & er & Ex & Her & Hmr & Hval);
    [split; [lia|]; apply Z.lt_trans with (2 ^ 30); [change (2 ^ 30) with 1073741824; lia | apply Z.pow_lt_mono_r; lia]|].
  rewrite Ex, of_int_1e9. unfold Float64.div, SFdiv, Float64.prec, Float64.emax.
  assert (Hdr : Zpos (digits2_pos mr) = 53)
    by (apply digits2_pos_unique; change (53 - 1) with 52; exact Hmr).
  destruct (SFdiv_core_normal mr er Hdr Her) as (l & Hcore). rewrite Hcore.
  cbn [xorb].
  set (qq := Zpos mr * 2 ^ 53 / 8388608000000000) in *.
  assert (Hqq : 2 ^ 52 <= qq < 2 ^ 54).
  { unfold qq. split.
    - apply Z.div_le_lower_bound; [lia|].
      change (2 ^ 52) with 4503599627370496 in *.
      change (2 ^ 53) with 9007199254740992 in *. lia.
    - apply Z.div_lt_upper_bound; [lia|].
      change (2 ^ 54) with 18014398509481984.
      change (2 ^ 53) with 9007199254740992 in *. lia. }
  assert (Hpos : 0 < qq) by (change (2 ^ 52) with 4503599627370496 in Hqq; lia).
  destruct qq as [|pq|pq] eqn:Eqq; try lia.
  pose proof (digits2_pos_bounds pq) as Hbq.
  set (dq := Zpos (digits2_pos pq)) in *.
  assert (Hdq : dq = 53 \/ dq = 54).
  { assert (52 < dq) by (apply (Z.pow_lt_mono_r_iff 2); lia).
    assert (dq - 1 < 54) by (apply (Z.pow_lt_mono_r_iff 2); lia).
    lia. }
  destruct (binary_round_aux_normal pq (er - 30) l) as
      (m2 & e2 & rne & Hres & He2 & Hm2 & Hrne & Hrv & Hhalf);
    [fold dq; lia | fold dq; lia | fold dq; lia |].
  fold dq in He2, Hrne, Hrv.
  exists m2, e2. split; [exact Hres|].
  split; [lia|]. split; [exact Hm2|].
  (* the quotient stays well below the power of two above it *)
  assert (Her' : er <= -23).
  { destruct (Z.leb_spec er (-23)) as [|Hgt]; [assumption | exfalso].
    assert (2 ^ (- er) <= 2 ^ 22) by (apply Z.pow_le_mono_r; lia).
    change (2 ^ 22) with 4194304 in *.
    change (2 ^ 52) with 4503599627370496 in *. nia. }
  set (P := 2 ^ (30 - er)).
  assert (HP : 2 ^ 53 <= P) by (apply Z.pow_le_mono_r; lia).
  assert (Hq9 : Zpos pq * 1000000000 <= r * P).
  { assert (Hmul : Zpos pq * 8388608000000000 <= Zpos mr * 2 ^ 53).
    { rewrite <- Eqq. unfold qq. rewrite Z.mul_comm.
      apply Z.mul_div_le. lia. }
    assert (EP : Zpos mr * 2 ^ 53 = r * P * 2 ^ 23).
    { rewrite Hval. unfold P. rewrite <- !Z.mul_assoc. f_equal.
      rewrite <- !Z.pow_add_r by lia. f_equal. lia. }
    change (2 ^ 23) with 8388608 in EP. lia. }
  change (2 ^ 53) with 9007199254740992 in HP.
  assert (Hrne_lt : rne < 2 ^ (- (er - 30 + (dq - 53)))).
  { destruct Hdq as [Hdq|Hdq]; rewrite Hdq in *.
    - change (53 - 53) with 0 in *. rewrite Z.div_1_r in Hrne.
      replace (- (er - 30 + 0)) with (30 - er) by lia. fold P. nia.
    - change (54 - 53) with 1 in *. change (2 ^ 1) with 2 in Hrne.
      assert (EP2 : P = 2 * 2 ^ (- (er - 30 + 1))).
      { unfold P. rewrite <- Z.pow_succ_r by lia. f_equal. lia. }
      pose proof (Z.mul_div_le (Zpos pq) 2 ltac:(lia)). nia. }
  set (e1 := er - 30 + (dq - 53)) in *.
  assert (Hsplit : 2 ^ (- e1) = 2 ^ (- e2) * 2 ^ (e2 - e1)).
  { rewrite <- Z.pow_add_r by lia. f_equal. lia. }
  assert (HA : 0 < 2 ^ (e2 - e1)) by (apply Z.pow_pos_nonneg; lia).
  assert (HB : 0 < 2 ^ (dq - 53)) by (apply Z.pow_pos_nonneg; lia).
  assert (HY : 0 < 2 ^ (- e2)) by (apply Z.pow_pos_nonneg; lia).
  split; [rewrite Hrv, Hsplit in Hrne_lt; nia|].
  assert (EP : P = 2 ^ (- e2) * (2 ^ (e2 - e1) * 2 ^ (dq - 53))).
  { unfold P. rewrite <- !Z.pow_add_r by lia. f_equal. unfold e1. lia. }
  pose proof (Z.mul_div_le (Zpos pq) (2 ^ (dq - 53)) HB) as Hfl.
  set (A := 2 ^ (e2 - e1)) in *. set (B := 2 ^ (dq - 53)) in *.
  set (Y := 2 ^ (- e2)) in *.
  assert (Hscaled : Zpos m2 * 1000000000 * (A * B)
                    <= (r * Y + 1000000000) * (A * B)).
  { assert (H1 : Zpos m2 * A * B <= Zpos pq + B) by (rewrite <- Hrv; nia).
    assert (H2 : B <= A * B) by nia.
    rewrite EP in Hq9. nia. }
  apply Z.mul_le_mono_pos_r in Hscaled; [exact Hscaled | nia].
Qed.

Lemma to_int_finite (m : positive) (e : Z) :
  e <= 0 -> Float64.to_int (S754_finite false m e) = Zpos m / 2 ^ (- e).
Proof.
  intros He. unfold Float64.to_int. destruct e as [|p|p]; try lia.
  - cbn [Z.shiftl Z.opp]. change (2 ^ 0) with 1. rewrite Z.div_1_r. reflexivity.
  - rewrite Z.shiftr_div_pow2 by lia. reflexivity.
Qed.

(** The sum of the float of a whole number [q] and a float below 1:
    the exact sum [M] (in units of the smaller exponent), the number [n]
    of bits rounding drops, and the rounded mantissa [rne]. *)
Lemma add_fraction_shape (mx my : positive) (ex ey q : Z) :
  -52 <= ex <= 0 -> 2 ^ 52 <= Zpos mx < 2 ^ 53 -> Zpos mx = q * 2 ^ (- ex) ->
  0 < q < 2 ^ 34 ->
  -82 <= ey -> 2 ^ 52 <= Zpos my -> Zpos my < 2 ^ (- ey) ->
  exists m2 e2 rne n,
    Float64.add (S754_finite false mx ex) (S754_finite false my ey)
    = S754_finite false m2 e2 /\
    ey <= -53 /\ 0 < n /\ ey + n <= e2 <= ey + n + 1 /\ e2 <= 0 /\
    2 ^ (52 + n) <= q * 2 ^ (- ey) + Zpos my < 2 ^ (53 + n) /\
    (q * 2 ^ (- ey) + Zpos my) / 2 ^ n <= rne
      <= (q * 2 ^ (- ey) + Zpos my) / 2 ^ n + 1 /\
    rne = Zpos m2 * 2 ^ (e2 - (ey + n)) /\
    2 * (rne * 2 ^ n) <= 2 * (q * 2 ^ (- ey) + Zpos my) + 2 ^ n.
Proof.
  intros Hex Hmx Hvx Hq Hey Hmy Hy.
  assert (Hey' : ey <= -53).
  { assert (ey <= 0).
    { destruct ey as [|p|p]; try lia.
      rewrite Z.pow_neg_r in Hy by lia. lia. }
    assert (52 < - ey) by (apply (Z.pow_lt_mono_r_iff 2); lia). lia. }
  remember (Float64.add (S754_finite false mx ex) (S754_finite false my ey))
    as z eqn:Hz.
  unfold Float64.add, SFadd, Float64.prec, Float64.emax in Hz.
  rewrite Z.min_r in Hz by lia.
  unfold shl_align in Hz. rewrite Z.sub_diag in Hz.
  destruct (ey - ex) as [|k|k] eqn:Hk; try lia.
  cbn [fst cond_Zopp Z.add] in Hz.
  set (pM := (Pos.iter xO mx k + my)%positive) in *.
  assert (HM : Zpos pM = q * 2 ^ (- ey) + Zpos my).
  { unfold pM. rewrite Pos2Z.inj_add, iter_xO_value, Hvx.
    rewrite <- Z.mul_assoc, <- Z.pow_add_r by lia.
    do 3 f_equal. lia. }
  assert (Hpy : 0 < 2 ^ (- ey)) by (apply Z.pow_pos_nonneg; lia).
  pose proof (digits2_pos_bounds pM) as HbM.
  set (dM := Zpos (digits2_pos pM)) in *.
  assert (HdM : 54 <= dM <= 34 - ey).
  { split.
    - assert (53 < dM); [|lia]. apply (Z.pow_lt_mono_r_iff 2); [lia | lia |].
      apply Z.le_lt_trans with (Zpos pM); [|lia].
      assert (2 ^ 53 <= 2 ^ (- ey)) by (apply Z.pow_le_mono_r; lia). nia.
    - assert (dM - 1 < 34 - ey); [|lia]. apply (Z.pow_lt_mono_r_iff 2); [lia | lia |].
      apply Z.le_lt_trans with (Zpos pM); [lia|].
      replace (34 - ey) with (34 + - ey) by lia. rewrite Z.pow_add_r by lia. nia. }
  unfold binary_normalize, binary_round in Hz. fold dM in Hz.
  rewrite fexp_normal in Hz by lia.
  unfold shl_align in Hz.
  destruct (dM + ey - 53 - ey) as [|j|j] eqn:Hj; try lia.
  destruct (binary_round_aux_normal pM ey loc_Exact) as
      (m2 & e2 & rne & Hres & He2 & Hm2 & Hrne & Hrv & Hhalf);
    [fold dM; lia | fold dM; lia | fold dM; lia |].
  fold dM in He2, Hrne, Hrv, Hhalf. rewrite Hres in Hz.
  exists m2, e2, rne, (dM - 53). rewrite <- HM.
  replace (52 + (dM - 53)) with (dM - 1) by lia.
  replace (53 + (dM - 53)) with dM by lia.
  repeat (split; [first [assumption | lia | tauto]|]).
  apply Hhalf; [reflexivity | lia].
Qed.

(** Its integer part is [q] or [q + 1]. *)
Lemma add_fraction (mx my : positive) (ex ey q : Z) :
  -52 <= ex <= 0 -> 2 ^ 52 <= Zpos mx < 2 ^ 53 -> Zpos mx = q * 2 ^ (- ex) ->
  0 < q < 2 ^ 34 ->
  -82 <= ey -> 2 ^ 52 <= Zpos my -> Zpos my < 2 ^ (- ey) ->
  q <= Float64.to_int (Float64.add (S754_finite false mx ex) (S754_finite false my ey))
    <= q + 1.
Proof.
  intros Hex Hmx Hvx Hq Hey Hmy Hy.
  destruct (add_fraction_shape mx my ex ey q) as
      (m2 & e2 & rne & n & Hz & Hey' & Hn & He2 & He20 & HM & Hlow & Hrv & Hhalf);
    try assumption.
  rewrite Hz, to_int_finite by lia.
  set (e1 := ey + n) in *. set (M := q * 2 ^ (- ey) + Zpos my) in *.
  assert (Hpy : 0 < 2 ^ (- ey)) by (apply Z.pow_pos_nonneg; lia).
  assert (Hpn : 0 < 2 ^ n) by (apply Z.pow_pos_nonneg; lia).
  assert (Hp1 : 0 < 2 ^ (- e1)) by (apply Z.pow_pos_nonneg; lia).
  assert (Hp2 : 0 < 2 ^ (- e2)) by (apply Z.pow_pos_nonneg; lia).
  assert (Hpd : 0 < 2 ^ (e2 - e1)) by (apply Z.pow_pos_nonneg; lia).
  assert (Ey : 2 ^ (- ey) = 2 ^ (- e1) * 2 ^ n)
    by (rewrite <- Z.pow_add_r by lia; f_equal; lia).
  assert (E1 : 2 ^ (- e1) = 2 ^ (- e2) * 2 ^ (e2 - e1))
    by (rewrite <- Z.pow_add_r by lia; f_equal; lia).
  assert (Hlo : q * 2 ^ (- e1) <= M / 2 ^ n).
  { apply Z.div_le_lower_bound; [lia|]. unfold M. nia. }
  split.
  - apply Z.div_le_lower_bound; [lia|]. nia.
  - apply Z.div_le_upper_bound; [lia|].
    assert (Hhi : M / 2 ^ n < (q + 1) * 2 ^ (- e1)).
    { apply Z.div_lt_upper_bound; [lia|]. unfold M. nia. }
    nia.
Qed.

(** Below 2^24 seconds the integer part is [q] itself, when the fraction
    is the rounded quotient of fewer than 10^9 nanoseconds. *)
Lemma add_fraction_exact (mx my : positive) (ex ey q r : Z) :
  -52 <= ex <= 0 -> 2 ^ 52 <= Zpos mx < 2 ^ 53 -> Zpos mx = q * 2 ^ (- ex) ->
  0 < q < 2 ^ 24 ->
  -82 <= ey -> 2 ^ 52 <= Zpos my -> Zpos my < 2 ^ (- ey) ->
  r < 1000000000 ->
  Zpos my * 1000000000 <= r * 2 ^ (- ey) + 1000000000 ->
  Float64.to_int (Float64.add (S754_finite false mx ex) (S754_finite false my ey))
  = q.
Proof.
  intros Hex Hmx Hvx Hq Hey Hmy Hy Hr Hyr.
  assert (Hq' : 0 < q < 2 ^ 34).
  { split; [lia|]. apply Z.lt_trans with (2 ^ 24); [lia|].
    apply Z.pow_lt_mono_r; lia. }
  pose proof (add_fraction mx my ex ey q Hex Hmx Hvx Hq' Hey Hmy Hy) as Hb.
  destruct (add_fraction_shape mx my ex ey q) as
      (m2 & e2 & rne & n & Hz & Hey' & Hn & He2 & He20 & HM & Hlow & Hrv & Hhalf);
    try assumption.
  rewrite Hz, to_int_finite in * by lia.
  set (e1 := ey + n) in *. set (Y := 2 ^ (- ey)) in *.
  assert (HY : 2 ^ 53 <= Y) by (apply Z.pow_le_mono_r; lia).
  assert (Hpn : 0 < 2 ^ n) by (apply Z.pow_pos_nonneg; lia).
  assert (Hp2 : 0 < 2 ^ (- e2)) by (apply Z.pow_pos_nonneg; lia).
  assert (Hpd : 0 < 2 ^ (e2 - e1)) by (apply Z.pow_pos_nonneg; lia).
  (* rounding drops at most -29 - ey bits *)
  assert (Hn29 : 2 ^ n * 2 ^ 29 <= Y).
  { assert (52 + n < 24 - ey).
    { apply (Z.pow_lt_mono_r_iff 2); [lia | lia |].
      apply Z.le_lt_trans with (q * Y + Zpos my); [lia|].
      replace (24 - ey) with (24 + - ey) by lia.
      rewrite Z.pow_add_r by lia. fold Y. nia. }
    rewrite <- Z.pow_add_r by lia. apply Z.pow_le_mono_r; lia. }
  assert (EY : Y = 2 ^ (- e2) * 2 ^ (e2 - e1) * 2 ^ n).
  { unfold Y. rewrite <- !Z.pow_add_r by lia. f_equal. unfold e1. lia. }
  change (2 ^ 29) with 536870912 in Hn29.
  change (2 ^ 53) with 9007199254740992 in HY.
  assert (Hlt : 2 * (rne * 2 ^ n) < 2 * ((q + 1) * Y)) by nia.
  assert (Hm2 : Zpos m2 < (q + 1) * 2 ^ (- e2)).
  { rewrite Hrv, EY in Hlt. fold e1 in Hlt.
    apply Z.mul_lt_mono_pos_r with (p := 2 ^ (e2 - e1) * 2 ^ n); nia. }
  assert (Zpos m2 / 2 ^ (- e2) < q + 1)
    by (apply Z.div_lt_upper_bound; lia).
  lia.
Qed.

(** [int(d.Seconds())] is the whole seconds of [d], or one more. *)
Lemma Seconds_to_int_bounds (d : Z) :
  time.Second <= d <= time.maxDuration ->
  Z.quot d time.Second <= Float64.to_int (time.Seconds d) <= Z.quot d time.Second + 1.
Proof.
  intros [Hlo Hhi]. unfold time.Seconds, time.maxDuration in *.
  change time.Second with 1000000000 in *.
  pose proof (Z.quot_rem' d 1000000000) as Hqr.
  pose proof (Z.rem_bound_pos d 1000000000 ltac:(lia) ltac:(lia)) as Hr.
  set (q := Z.quot d 1000000000) in *. set (r := Z.rem d 1000000000) in *.
  assert (Hq : 0 < q < 2 ^ 34).
  { change (2 ^ 63) with 9223372036854775808 in Hhi.
    change (2 ^ 34) with 17179869184. lia. }
  destruct (of_int_exact q) as (mx & ex & Hx & Hex & Hmx & Hvx).
  { split; [lia|]. apply Z.lt_trans with (2 ^ 34); [lia|].
    apply Z.pow_lt_mono_r; lia. }
  rewrite Hx.
  destruct (Z.eq_dec r 0) as [Hr0|Hr0].
  - rewrite Hr0. rewrite of_int_1e9.
    change (Float64.div (Float64.of_int 0) (S754_finite false 8388608000000000 (-23)))
      with (S754_zero false).
    change (Float64.add (S754_finite false mx ex) (S754_zero false))
      with (S754_finite false mx ex).
    rewrite to_int_finite, Hvx by lia.
    rewrite Z.div_mul by (apply Z.pow_nonzero; lia). lia.
  - destruct (div_fraction r) as (my & ey & Hy & Hey & Hmy & Hylt & _); [lia|].
    rewrite Hy. apply add_fraction; try assumption; lia.
Qed.


(** Below 2^24 seconds it is the whole seconds. *)
Lemma Seconds_to_int_exact (d : Z) :
  time.Second <= d < 2 ^ 24 * time.Second ->
  Float64.to_int (time.Seconds d) = Z.quot d time.Second.
Proof.
  intros [Hlo Hhi]. unfold time.Seconds, time.maxDuration in *.
  change time.Second with 1000000000 in *.
  pose proof (Z.quot_rem' d 1000000000) as Hqr.
  pose proof (Z.rem_bound_pos d 1000000000 ltac:(lia) ltac:(lia)) as Hr.
  set (q := Z.quot d 1000000000) in *. set (r := Z.rem d 1000000000) in *.
  change (2 ^ 24) with 16777216 in Hhi.
  assert (Hq : 0 < q < 2 ^ 24) by (change (2 ^ 24) with 16777216; lia).
  destruct (of_int_exact q) as (mx & ex & Hx & Hex & Hmx & Hvx).
  { split; [lia|]. apply Z.lt_trans with (2 ^ 24); [lia|].
    apply Z.pow_lt_mono_r; lia. }
  rewrite Hx.
  destruct (Z.eq_dec r 0) as [Hr0|Hr0].
  - rewrite Hr0. rewrite of_int_1e9.
    change (Float64.div (Float64.of_int 0) (S754_finite false 8388608000000000 (-23)))
      with (S754_zero false).
    change (Float64.add (S754_finite false mx ex) (S754_zero false))
      with (S754_finite false mx ex).
    rewrite to_int_finite, Hvx by lia.
    apply Z.div_mul. apply Z.pow_nonzero; lia.
  - destruct (div_fraction r) as (my & ey & Hy & Hey & Hmy & Hylt & Hyr); [lia|].
    rewrite Hy. apply add_fraction_exact with (r := r); try assumption; lia.
Qed.

(** *** The duration formatter *)

Lemma humanReadableDuration_short (d : time.Duration) :
  d < time.Second -> humanReadableDuration d = "less than a second".
Proof.
  intros H. unfold humanReadableDuration.
  destruct (Z.ltb_spec d time.Second) as [_|Hge]; [reflexivity | lia].
Qed.

Lemma humanReadableDuration_long (d : time.Duration) :
  time.Second <= d ->
  humanReadableDuration d
  = strings.Join (durationParts (durationComponents d)) " ".
Proof.
  intros H. unfold humanReadableDuration.
  destruct (Z.ltb_spec d time.Second) as [Hlt|_]; [lia | reflexivity].
Qed.

Lemma part_without (n : Z) (label : string) (c : ascii) :
  notNumeric c = true ->
  strings.ContainsByte label c = false ->
  strings.ContainsByte (Sprintf_d n +++ label) c = false.
Proof.
  intros Hc Hl. rewrite ContainsByte_append, Sprintf_d_numeric, Hl by exact Hc.
  reflexivity.
Qed.

Ltac parts_without :=
  unfold durationParts; cbn [Z.ltb Z.compare app];
  repeat match goal with
         | |- context [0 <? ?x] => destruct (0 <? x)
         end;
  cbn [app]; repeat constructor; apply part_without; reflexivity.

Lemma durationParts_no_hours (m s : Z) :
  Forall (fun p => strings.ContainsByte p "h" = false) (durationParts (0, m, s)).
Proof. parts_without. Qed.

Lemma durationParts_no_minutes (h s : Z) :
  Forall (fun p => strings.ContainsByte p "m" = false) (durationParts (h, 0, s)).
Proof. parts_without. Qed.

Lemma durationParts_no_seconds (h m : Z) :
  Forall (fun p => strings.ContainsByte p "s" = false) (durationParts (h, m, 0)).
Proof. parts_without. Qed.

(** The split of a non-negative number of seconds. *)
Lemma splitSeconds_sound (total : Z) :
  0 <= total ->
  let '(h, m, s) := splitSeconds total in
  0 <= h /\ 0 <= m < 60 /\ 0 <= s < 60 /\ h * 3600 + m * 60 + s = total.
Proof.
  intros Hnn. unfold splitSeconds.
  destruct (Z.leb_spec 60 total) as [H60|H60]; [|lia].
  assert (Hq : 0 <= Z.quot total 60) by (apply Z.quot_pos; lia).
  pose proof (Z.quot_rem' total 60) as Hqr.
  pose proof (Z.rem_bound_pos total 60 Hnn ltac:(lia)) as Hr.
  destruct (Z.leb_spec 60 (Z.quot total 60)) as [H3600|H3600]; [|lia].
  pose proof (Z.quot_rem' (Z.quot total 60) 60) as Hqr'.
  pose proof (Z.rem_bound_pos (Z.quot total 60) 60 Hq ltac:(lia)) as Hr'.
  assert (0 <= Z.quot (Z.quot total 60) 60) by (apply Z.quot_pos; lia).
  lia.
Qed.

Lemma Sprintf_d_nonempty (n : Z) : Sprintf_d n <> "".
Proof.
  unfold Sprintf_d.
  destruct n as [|p|p]; cbn [Z.to_int NilZero.string_of_int];
    try discriminate; destruct (Pos.to_uint p); discriminate.
Qed.

(** From one second on, some component is positive, so some part is
    printed. *)
Lemma durationParts_nonempty (total : Z) :
  1 <= total ->
  strings.Join (durationParts (splitSeconds total)) " " <> "".
Proof.
  intros H1. pose proof (splitSeconds_sound total ltac:(lia)) as Hs.
  destruct (splitSeconds total) as [[h m] s].
  destruct Hs as (Hh & Hm & Hs & Hsum).
  assert (Hne : forall n label rest,
             strings.Join ((Sprintf_d n +++ label) :: rest) " " <> "").
  { intros n label rest. pose proof (Sprintf_d_nonempty n) as Hn.
    destruct (Sprintf_d n); [congruence|].
    destruct rest; cbn; discriminate. }
  unfold durationParts.
  destruct (Z.ltb_spec 0 h); destruct (Z.ltb_spec 0 m);
    destruct (Z.ltb_spec 0 s); cbn [app]; try apply Hne; lia.
Qed.

(** For every [int64] duration of at least one second: the components
    are within their ranges, they add up to the whole seconds of the
    duration or to one second more, and something is printed. *)
Lemma humanReadableDuration_components (d : time.Duration) :
  time.Second <= d <= time.maxDuration ->
  0 <= hoursOf d /\ 0 <= minutesOf d < 60 /\ 0 <= secondsOf d < 60 /\
  (hoursOf d * 3600 + minutesOf d * 60 + secondsOf d = Z.quot d time.Second \/
   hoursOf d * 3600 + minutesOf d * 60 + secondsOf d = Z.quot d time.Second + 1) /\
  humanReadableDuration d <> "".
Proof.
  intros Hd. pose proof (Seconds_to_int_bounds d Hd) as Hb.
  assert (Hq : 1 <= Z.quot d time.Second).
  { change time.Second with 1000000000 in *.
    apply Z.quot_le_lower_bound; lia. }
  rewrite (humanReadableDuration_long d (proj1 Hd)).
  unfold hoursOf, minutesOf, secondsOf, durationComponents.
  set (total := Float64.to_int (time.Seconds d)) in *.
  pose proof (splitSeconds_sound total ltac:(lia)) as Hs.
  pose proof (durationParts_nonempty total ltac:(lia)) as Hne.
  destruct (splitSeconds total) as [[h m] s]. cbn [fst snd].
  destruct Hs as (Hh & Hm & Hs & Hsum).
  repeat (split; [lia|]). exact Hne.
Qed.

(** Below 2^24 seconds (about 194 days) they add up to the whole
    seconds. *)
Lemma humanReadableDuration_components_exact (d : time.Duration) :
  time.Second <= d < 2 ^ 24 * time.Second ->
  hoursOf d * 3600 + minutesOf d * 60 + secondsOf d = Z.quot d time.Second.
Proof.
  intros Hd. pose proof (Seconds_to_int_exact d Hd) as He.
  assert (Hq : 1 <= Z.quot d time.Second).
  { change time.Second with 1000000000 in *.
    apply Z.quot_le_lower_bound; lia. }
  unfold hoursOf, minutesOf, secondsOf, durationComponents. rewrite He.
  pose proof (splitSeconds_sound (Z.quot d time.Second) ltac:(lia)) as Hs.
  destruct (splitSeconds (Z.quot d time.Second)) as [[h m] s]. cbn [fst snd].
  lia.
Qed.

(** C1: a duration below one second is reported as "less than a
    second"; 90 seconds as "1 min 30 sec"; 3661 seconds as
    "1 h 1 min 1 sec"; and from one second on a component that is zero
    is left out: with zero hours no [h] occurs in the output, with zero
    minutes no [m], with zero seconds no [s]. *)
Theorem humanReadableDuration_spec :
  (forall d : time.Duration,
      d < time.Second -> humanReadableDuration d = "less than a second") /\
  humanReadableDuration (90 * time.Second) = "1 min 30 sec" /\
  humanReadableDuration (3661 * time.Second) = "1 h 1 min 1 sec" /\
  (forall d : time.Duration,
      time.Second <= d ->
      (hoursOf d = 0 -> strings.ContainsByte (humanReadableDuration d) "h" = false) /\
      (minutesOf d = 0 -> strings.ContainsByte (humanReadableDuration d) "m" = false) /\
      (secondsOf d = 0 -> strings.ContainsByte (humanReadableDuration d) "s" = false)).
Proof.
  split; [exact humanReadableDuration_short|].
  split; [vm_compute; reflexivity|].
  split; [vm_compute; reflexivity|].
  intros d Hd. rewrite (humanReadableDuration_long d Hd).
  unfold hoursOf, minutesOf, secondsOf.
  destruct (durationComponents d) as [[h m] s]. cbn [fst snd].
  repeat split; intros ->; apply ContainsByte_Join;
    first [reflexivity | apply durationParts_no_hours
           | apply durationParts_no_minutes | apply durationParts_no_seconds].
Qed.

(** C10, evaluated at 16777216.999999999 seconds (an [int64] duration
    of about 194 days): [duration.Seconds()] rounds the sum of the whole
    seconds and the fraction to the float of 16777217, so the components
    add up to one second more than the duration holds, and "17 sec" is
    printed for a duration whose seconds are 16. *)
Theorem humanReadableDuration_rounds_seconds_up :
  time.is_int64 16777216999999999 = true /\
  (time.Second <=? 16777216999999999) = true /\
  Z.quot 16777216999999999 time.Second = 16777216 /\
  Z.rem 16777216999999999 time.Second = 999999999 /\
  time.Seconds 16777216999999999 = Float64.of_int 16777217 /\
  durationComponents 16777216999999999 = (4660, 20, 17) /\
  hoursOf 16777216999999999 * 3600 + minutesOf 16777216999999999 * 60
    + secondsOf 16777216999999999 = 16777217 /\
  4660 * 3600 + 20 * 60 + 16 = 16777216 /\
  humanReadableDuration 16777216999999999 = "4660 h 20 min 17 sec".
Proof. vm_compute. repeat split; reflexivity. Qed.

(** *** The setting mappers *)

Lemma lowerBytes_fixed (s : string) : hasUpper s = false -> lowerBytes s = s.
Proof.
  induction s as [|c s IH]; cbn [hasUpper lowerBytes]; [reflexivity|].
  intros H. apply orb_false_iff in H. destruct H as [Hc Hs].
  unfold lowerByte. rewrite Hc, (IH Hs). reflexivity.
Qed.

Lemma ToLower_ASCII (s : string) : isASCII s = true -> ToLower s = lowerBytes s.
Proof.
  intros H. unfold ToLower. rewrite H.
  destruct (hasUpper s) eqn:Hup; cbn [negb]; [reflexivity|].
  symmetry. apply lowerBytes_fixed, Hup.
Qed.

Lemma lowerByte_ASCII (c : ascii) :
  (nat_of_ascii (lowerByte c) <? 128)%nat = true ->
  (nat_of_ascii c <? 128)%nat = true.
Proof.
  destruct c as [b0 b1 b2 b3 b4 b5 b6 b7].
  destruct b7; [|intros _; destruct b0, b1, b2, b3, b4, b5, b6; reflexivity].
  destruct b0, b1, b2, b3, b4, b5, b6; vm_compute; intros H; exact H.
Qed.

Lemma isASCII_lowerBytes (s : string) :
  isASCII (lowerBytes s) = true -> isASCII s = true.
Proof.
  induction s as [|c s IH]; cbn [isASCII lowerBytes]; [reflexivity|].
  intros H. apply andb_true_iff in H. destruct H as [Hc Hs].
  rewrite (lowerByte_ASCII c Hc), (IH Hs). reflexivity.
Qed.

(** A string that is ASCII after byte-wise lowering takes the fast path
    of [strings.ToLower]. *)
Lemma ToLower_lowerBytes (s t : string) :
  isASCII t = true -> lowerBytes s = t -> ToLower s = t.
Proof.
  intros Ht Hs. rewrite ToLower_ASCII; [exact Hs|].
  apply isASCII_lowerBytes. rewrite Hs. exact Ht.
Qed.

(** C2: [mapOutputSetting] returns a nil error for every input; an
    input that lowers to "json" (in whatever case its letters are) maps
    to [cf.JSON], one that lowers to "yaml" to [cf.YAML], and every
    other input, "bogus" for one, to the sentinel [-1]. *)
Theorem mapOutputSetting_spec :
  (forall s, snd (mapOutputSetting s) = None) /\
  (forall s, ToLower s = "json" -> mapOutputSetting s = (JSON, None)) /\
  (forall s, ToLower s = "yaml" -> mapOutputSetting s = (YAML, None)) /\
  (forall s, ToLower s <> "json" -> ToLower s <> "yaml" ->
             mapOutputSetting s = (-1, None)) /\
  (forall s, lowerBytes s = "json" -> mapOutputSetting s = (JSON, None)) /\
  (forall s, lowerBytes s = "yaml" -> mapOutputSetting s = (YAML, None)) /\
  mapOutputSetting "JSON" = (JSON, None) /\
  mapOutputSetting "Yaml" = (YAML, None) /\
  mapOutputSetting "bogus" = (-1, None).
Proof.
  assert (Hj : forall s, ToLower s = "json" -> mapOutputSetting s = (JSON, None)).
  { intros s H. unfold mapOutputSetting. rewrite H. reflexivity. }
  assert (Hy : forall s, ToLower s = "yaml" -> mapOutputSetting s = (YAML, None)).
  { intros s H. unfold mapOutputSetting. rewrite H. reflexivity. }
  assert (Hn : forall s, ToLower s <> "json" -> ToLower s <> "yaml" ->
                         mapOutputSetting s = (-1, None)).
  { intros s H1 H2. unfold mapOutputSetting.
    destruct (String.eqb_spec (ToLower s) "json"); [contradiction|].
    destruct (String.eqb_spec (ToLower s) "yaml"); [contradiction|].
    reflexivity. }
  repeat split; try assumption.
  - intros s. unfold mapOutputSetting.
    destruct (String.eqb (ToLower s) "json"); [reflexivity|].
    destruct (String.eqb (ToLower s) "yaml"); reflexivity.
  - intros s H. apply Hj, ToLower_lowerBytes; [reflexivity | exact H].
  - intros s H. apply Hy, ToLower_lowerBytes; [reflexivity | exact H].
Qed.

(** C3: [mapDeleteSetting] maps "always", "never" and "on-success" to
    [cf.Always], [cf.Never] and [cf.OnSuccess] with a nil error, and
    returns an error for every other string; the comparison is exact, so
    "Always" is an error as "bogus" is. *)
Theorem mapDeleteSetting_spec :
  mapDeleteSetting "always" = (Always, None) /\
  mapDeleteSetting "never" = (Never, None) /\
  mapDeleteSetting "on-success" = (OnSuccess, None) /\
  (forall s, s <> "always" -> s <> "never" -> s <> "on-success" ->
             mapDeleteSetting s
             = (-1, Some ("unsupported delete setting: " +++ s))) /\
  (forall s, snd (mapDeleteSetting s) = None <->
             s = "always" \/ s = "never" \/ s = "on-success") /\
  mapDeleteSetting "Always"
  = (-1, Some "unsupported delete setting: Always") /\
  mapDeleteSetting "bogus"
  = (-1, Some "unsupported delete setting: bogus").
Proof.
  assert (Hother : forall s, s <> "always" -> s <> "never" -> s <> "on-success" ->
             mapDeleteSetting s
             = (-1, Some ("unsupported delete setting: " +++ s))).
  { intros s H1 H2 H3. unfold mapDeleteSetting.
    destruct (String.eqb_spec s "always"); [contradiction|].
    destruct (String.eqb_spec s "never"); [contradiction|].
    destruct (String.eqb_spec s "on-success"); [contradiction|].
    reflexivity. }
  repeat split; try reflexivity; try assumption.
  - intros H.
    destruct (string_dec s "always") as [|H1]; [left; assumption|].
    destruct (string_dec s "never") as [|H2]; [right; left; assumption|].
    destruct (string_dec s "on-success") as [|H3]; [right; right; assumption|].
    rewrite (Hother s H1 H2 H3) in H. discriminate.
  - intros [-> | [-> | ->]]; reflexivity.
Qed.

(** *** The report printer *)

Lemma emit_emit (a b : list (event Directory)) (st : state) :
  emit b (emit a st) = emit (a ++ b) st.
Proof. unfold emit. cbn [world trace]. rewrite <- app_assoc. reflexivity. Qed.

Lemma emit_nil (st : state) : emit [] st = st.
Proof. destruct st. unfold emit. cbn [world trace]. rewrite app_nil_r. reflexivity. Qed.

Lemma summaryPrintout_oneline (appCaption : string) (report : cf.PushReport)
    (summary : string) (outputType : cf.OutputType) (st : state) :
  summary = "short" \/ summary = "oneline" ->
  summaryPrintout appCaption report summary outputType st
  = (None, emit [Out_Printf (oneLineSummary appCaption report)] st).
Proof. intros [-> | ->]; reflexivity. Qed.

Lemma summaryPrintout_silent (appCaption : string) (report : cf.PushReport)
    (summary : string) (outputType : cf.OutputType) (st : state) :
  summary <> "short" -> summary <> "oneline" -> summary <> "full" ->
  summaryPrintout appCaption report summary outputType st = (None, st).
Proof.
  intros H1 H2 H3. unfold summaryPrintout.
  destruct (String.eqb_spec summary "short"); [contradiction|].
  destruct (String.eqb_spec summary "oneline"); [contradiction|].
  destruct (String.eqb_spec summary "full"); [contradiction|].
  reflexivity.
Qed.

Lemma summaryPrintout_full_json (appCaption : string) (report : cf.PushReport)
    (st : state) :
  summaryPrintout appCaption report "full" JSON st
  = match jsonFailure report with
    | Some e => (Some e, st)
    | None => (None, emit (jsonRendering report) st)
    end.
Proof.
  unfold summaryPrintout, jsonFailure, jsonRendering. cbn [String.eqb Ascii.eqb orb].
  change (("full" =? "short")%string) with false.
  change (("full" =? "oneline")%string) with false.
  change (("full" =? "full")%string) with true. cbn [orb].
  rewrite Z.eqb_refl.
  destruct (cf.ToJSON report) as [output [e|]]; cbn [fst snd]; [reflexivity|].
  destruct (json_Indent output "" "   ") as [buffer [e|]]; reflexivity.
Qed.

Lemma summaryPrintout_full_yaml (appCaption : string) (report : cf.PushReport)
    (st : state) :
  YAML <> JSON ->
  summaryPrintout appCaption report "full" YAML st
  = match yamlFailure report with
    | Some e => (Some e, st)
    | None => (None, emit (yamlRendering report) st)
    end.
Proof.
  intros Hne. unfold summaryPrintout, yamlFailure, yamlRendering.
  change (("full" =? "short")%string) with false.
  change (("full" =? "oneline")%string) with false.
  change (("full" =? "full")%string) with true. cbn [orb].
  destruct (Z.eqb_spec YAML JSON); [contradiction|].
  rewrite Z.eqb_refl.
  destruct (cf.ToYAML report) as [output [e|]]; reflexivity.
Qed.

Lemma summaryPrintout_full_human (appCaption : string) (report : cf.PushReport)
    (outputType : cf.OutputType) (st : state) :
  outputType <> JSON -> outputType <> YAML ->
  summaryPrintout appCaption report "full" outputType st
  = (None, emit (humanReport appCaption report) st).
Proof.
  intros Hj Hy. unfold summaryPrintout, humanReport, reportHeader, reportTimings.
  change (("full" =? "short")%string) with false.
  change (("full" =? "oneline")%string) with false.
  change (("full" =? "full")%string) with true. cbn [orb].
  destruct (Z.eqb_spec outputType JSON); [contradiction|].
  destruct (Z.eqb_spec outputType YAML); [contradiction|].
  unfold bind, bunt_Printf, log, ret.
  destruct (cf.HasTimeDetails report);
    rewrite ?emit_emit; reflexivity.
Qed.

Lemma summaryPrintout_not_full (appCaption : string) (report : cf.PushReport)
    (summary : string) (outputType : cf.OutputType) (st : state) :
  summary <> "full" ->
  fst (summaryPrintout appCaption report summary outputType st) = None.
Proof.
  intros Hfull.
  destruct (string_dec summary "short") as [Hs|Hs];
    [rewrite summaryPrintout_oneline by prop; reflexivity|].
  destruct (string_dec summary "oneline") as [Ho|Ho];
    [rewrite summaryPrintout_oneline by prop; reflexivity|].
  rewrite summaryPrintout_silent by assumption. reflexivity.
Qed.

(** C6: [summaryPrintout] returns the error [e] exactly when the level
    is "full" and either the output type is JSON and serializing or
    re-indenting the report fails with [e], or it is YAML and
    serializing fails with [e]; at every other level, for every other
    output type, and whenever the serialization succeeds, it returns
    nil. *)
Theorem summaryPrintout_error_only_from_serialization
    (appCaption : string) (report : cf.PushReport) (summary : string)
    (outputType : cf.OutputType) (st : state) :
  (forall e,
      fst (summaryPrintout appCaption report summary outputType st) = Some e <->
      summary = "full" /\
      ((outputType = JSON /\ jsonFailure report = Some e) \/
       (outputType <> JSON /\ outputType = YAML /\ yamlFailure report = Some e))) /\
  (summary <> "full" ->
   fst (summaryPrintout appCaption report summary outputType st) = None) /\
  (outputType <> JSON -> outputType <> YAML ->
   fst (summaryPrintout appCaption report summary outputType st) = None) /\
  (jsonFailure report = None -> yamlFailure report = None ->
   fst (summaryPrintout appCaption report summary outputType st) = None).
Proof.
  assert (Hiff : forall e,
      fst (summaryPrintout appCaption report summary outputType st) = Some e <->
      summary = "full" /\
      ((outputType = JSON /\ jsonFailure report = Some e) \/
       (outputType <> JSON /\ outputType = YAML /\ yamlFailure report = Some e))).
  { intros e. destruct (string_dec summary "full") as [->|Hfull].
    - destruct (Z.eq_dec outputType JSON) as [->|Hj].
      + rewrite summaryPrintout_full_json.
        destruct (jsonFailure report) as [e'|]; cbn [fst]; prop_eq.
      + destruct (Z.eq_dec outputType YAML) as [->|Hy].
        * rewrite summaryPrintout_full_yaml by assumption.
          destruct (yamlFailure report) as [e'|]; cbn [fst]; prop_eq.
        * rewrite summaryPrintout_full_human by assumption. cbn [fst].
          prop_eq.
    - rewrite summaryPrintout_not_full by assumption. prop_eq. }
  assert (Hnone : forall o : option error, (forall e, o <> Some e) -> o = None).
  { intros [e|] H; [exfalso; apply (H e); reflexivity | reflexivity]. }
  split; [exact Hiff|].
  split; [apply summaryPrintout_not_full|].
  split.
  - intros Hj Hy. apply Hnone. intros e He. apply Hiff in He. prop.
  - intros Hj Hy. apply Hnone. intros e He. apply Hiff in He.
    destruct He as [_ [[_ H]|[_ [_ H]]]]; congruence.
Qed.

(** C7, as the code has it: the output type matters at level "full"
    only.  At "short" and "oneline" the one-line summary with the
    human-readable elapsed time is printed whatever the output type.  At
    "full" the output type selects the rendering: for JSON the
    re-indented JSON and for YAML the YAML text, each printed when its
    serialization succeeds, while a failure prints nothing and returns
    the error; for every other output type the multi-line report, whose
    per-phase timings appear exactly when the report has time
    details. *)
Theorem summaryPrintout_rendering
    (appCaption : string) (report : cf.PushReport)
    (outputType : cf.OutputType) (st : state) :
  (forall summary outputType',
      summary <> "full" ->
      summaryPrintout appCaption report summary outputType st
      = summaryPrintout appCaption report summary outputType' st) /\
  (forall summary,
      summary = "short" \/ summary = "oneline" ->
      summaryPrintout appCaption report summary outputType st
      = (None, emit [Out_Printf (oneLineSummary appCaption report)] st)) /\
  (outputType = JSON ->
   summaryPrintout appCaption report "full" outputType st
   = match jsonFailure report with
     | Some e => (Some e, st)
     | None => (None, emit (jsonRendering report) st)
     end) /\
  (outputType <> JSON -> outputType = YAML ->
   summaryPrintout appCaption report "full" outputType st
   = match yamlFailure report with
     | Some e => (Some e, st)
     | None => (None, emit (yamlRendering report) st)
     end) /\
  (outputType <> JSON -> outputType <> YAML ->
   summaryPrintout appCaption report "full" outputType st
   = (None, emit (humanReport appCaption report) st)) /\
  (humanReport appCaption report
   = if cf.HasTimeDetails report
     then reportHeader appCaption report ++ reportTimings report ++ [Out_Printf LF]
     else reportHeader appCaption report ++ [Out_Printf LF]).
Proof.
  repeat split.
  - intros summary outputType' Hfull.
    destruct (string_dec summary "short") as [Hs|Hs];
      [rewrite !summaryPrintout_oneline by prop; reflexivity|].
    destruct (string_dec summary "oneline") as [Ho|Ho];
      [rewrite !summaryPrintout_oneline by prop; reflexivity|].
    rewrite !summaryPrintout_silent by assumption. reflexivity.
  - intros summary H. apply summaryPrintout_oneline, H.
  - intros ->. apply summaryPrintout_full_json.
  - intros Hj ->. apply summaryPrintout_full_yaml, Hj.
  - intros Hj Hy. apply summaryPrintout_full_human; assumption.
  - unfold humanReport. destruct (cf.HasTimeDetails report); reflexivity.
Qed.

(** C8: at a summary level other than "short", "oneline" and "full",
    "quiet" and the empty string among them, [summaryPrintout] prints
    nothing and returns nil, for every report and every output type. *)
Theorem summaryPrintout_unknown_level_is_silent
    (appCaption : string) (report : cf.PushReport)
    (outputType : cf.OutputType) (st : state) :
  (forall summary,
      summary <> "short" -> summary <> "oneline" -> summary <> "full" ->
      summaryPrintout appCaption report summary outputType st = (None, st)) /\
  summaryPrintout appCaption report "quiet" outputType st = (None, st) /\
  summaryPrintout appCaption report "" outputType st = (None, st).
Proof.
  split; [|split].
  - intros summary. apply summaryPrintout_silent.
  - reflexivity.
  - reflexivity.
Qed.

(** *** One push *)

Lemma mapOutputSetting_no_error (s : string) : snd (mapOutputSetting s) = None.
Proof.
  unfold mapOutputSetting.
  destruct (String.eqb (ToLower s) "json"); [reflexivity|].
  destruct (String.eqb (ToLower s) "yaml"); reflexivity.
Qed.

Lemma runSampleAppPush_delete_error (app : sampleApp) (st : state) (e : error) :
  snd (mapDeleteSetting deleteSetting) = Some e ->
  runSampleAppPush app st = (Some e, emit [Call_mapDeleteSetting deleteSetting] st).
Proof.
  intros H. unfold runSampleAppPush, bind, log.
  destruct (mapDeleteSetting deleteSetting) as [cleanup err].
  cbn [snd] in H. subst err. reflexivity.
Qed.

(** With a supported delete setting, the push runs on after the name
    has been generated and the asset function called. *)
Lemma runSampleAppPush_after_asset (app : sampleApp) (st : state)
    (cleanup : cf.AppCleanupSetting) (appName : string) (w1 w2 : World)
    (bundle : Directory + error) :
  mapDeleteSetting deleteSetting = (cleanup, None) ->
  RandomStringWithPrefix (appNamePrefix app) 32 (world st) = (appName, w1) ->
  assetFunc app w1 = (bundle, w2) ->
  runSampleAppPush app st
  = match bundle with
    | inr e => (Some e, {| world := w2; trace := trace st ++ callsBeforeAsset app |})
    | inl directory =>
        match PushApp (caption app) appName directory cleanup w2 with
        | (inr e, w3) =>
            (Some e, {| world := w3;
                        trace := trace st ++ callsBeforePush app appName directory cleanup |})
        | (inl report, w3) =>
            summaryPrintout (caption app) report summarySetting
              (fst (mapOutputSetting outputSetting))
              {| world := w3;
                 trace := trace st ++ callsBeforeSummary app appName directory cleanup |}
        end
    end.
Proof.
  intros Hd Hr Ha. unfold runSampleAppPush, bind, log, extern, ret.
  unfold callsBeforeSummary, callsBeforePush, callsBeforeAsset.
  rewrite Hd. pose proof (mapOutputSetting_no_error outputSetting) as Ho.
  destruct (mapOutputSetting outputSetting) as [outputType err].
  cbn [fst snd] in *. subst err.
  unfold emit. cbn [world trace]. rewrite Hr. cbn [world trace]. rewrite Ha.
  destruct bundle as [directory|e]; cbn [world trace].
  - destruct (PushApp (caption app) appName directory cleanup w2) as [[report|e] w3];
      cbn [world trace fst]; rewrite <- ?app_assoc; reflexivity.
  - rewrite <- ?app_assoc. reflexivity.
Qed.

(** [summaryPrintout] leaves the world alone and adds output only. *)
Lemma summaryPrintout_emits (appCaption : string) (report : cf.PushReport)
    (summary : string) (outputType : cf.OutputType) (st : state) :
  exists es,
    snd (summaryPrintout appCaption report summary outputType st) = emit es st /\
    forallb isOutput es = true.
Proof.
  destruct (string_dec summary "full") as [->|Hfull].
  - destruct (Z.eq_dec outputType JSON) as [->|Hj].
    + rewrite summaryPrintout_full_json.
      destruct (jsonFailure report);
        [exists []; rewrite emit_nil | exists (jsonRendering report)];
        split; reflexivity.
    + destruct (Z.eq_dec outputType YAML) as [->|Hy].
      * rewrite summaryPrintout_full_yaml by assumption.
        destruct (yamlFailure report);
          [exists []; rewrite emit_nil | exists (yamlRendering report)];
          split; reflexivity.
      * rewrite summaryPrintout_full_human by assumption.
        exists (humanReport appCaption report). split; [reflexivity|].
        unfold humanReport. destruct (cf.HasTimeDetails report); reflexivity.
  - destruct (string_dec summary "short") as [Hs|Hs];
      [rewrite summaryPrintout_oneline by prop; eexists; split; reflexivity|].
    destruct (string_dec summary "oneline") as [Ho|Ho];
      [rewrite summaryPrintout_oneline by prop; eexists; split; reflexivity|].
    rewrite summaryPrintout_silent by assumption.
    exists []. rewrite emit_nil. split; reflexivity.
Qed.

(** One push extends the trace, and the only name it hands to
    [cf.PushApp] is the one [text.RandomStringWithPrefix] returned for
    the app's prefix. *)
Lemma runSampleAppPush_trace (app : sampleApp) (st : state) :
  exists es,
    trace (snd (runSampleAppPush app st)) = trace st ++ es /\
    forall c n d k,
      In (Call_PushApp c n d k) es ->
      n = fst (RandomStringWithPrefix (appNamePrefix app) 32 (world st)).
Proof.
  destruct (mapDeleteSetting deleteSetting) as [cleanup [e|]] eqn:Hd.
  - rewrite (runSampleAppPush_delete_error app st e) by (rewrite Hd; reflexivity).
    eexists. split; [reflexivity|].
    intros c n d k [H|[]]. discriminate.
  - destruct (RandomStringWithPrefix (appNamePrefix app) 32 (world st))
      as [appName w1] eqn:Hr.
    destruct (assetFunc app w1) as [bundle w2] eqn:Ha.
    rewrite (runSampleAppPush_after_asset app st cleanup appName w1 w2 bundle Hd Hr Ha).
    cbn [fst].
    destruct bundle as [directory|e].
    + destruct (PushApp (caption app) appName directory cleanup w2)
        as [[report|e] w3].
      * match goal with
        | |- context [summaryPrintout ?c ?r ?s ?o ?t] =>
            destruct (summaryPrintout_emits c r s o t) as (es & Hes & Hout)
        end.
        rewrite Hes. unfold emit. cbn [trace world].
        rewrite <- app_assoc. eexists. split; [reflexivity|].
        intros c n d k Hin. apply in_app_or in Hin. destruct Hin as [Hin|Hin].
        -- unfold callsBeforeSummary, callsBeforePush, callsBeforeAsset in Hin.
           cbn [List.app In] in Hin.
           repeat (destruct Hin as [Hin|Hin]; [try discriminate|]);
             [injection Hin; intros; subst; reflexivity | destruct Hin].
        -- rewrite forallb_forall in Hout. apply Hout in Hin. discriminate.
      * cbn [snd trace]. eexists. split; [reflexivity|].
        unfold callsBeforePush, callsBeforeAsset. cbn [List.app In].
        intros c n d k Hin.
        repeat (destruct Hin as [Hin|Hin]; [try discriminate|]);
          [injection Hin; intros; subst; reflexivity | destruct Hin].
    + cbn [snd trace]. eexists. split; [reflexivity|].
      unfold callsBeforeAsset. cbn [In].
      intros c n d k Hin.
      repeat (destruct Hin as [Hin|Hin]; [discriminate|]). destruct Hin.
Qed.

(** C4: [runSampleAppPush] maps the delete setting, maps the output
    setting, generates the name from the app's prefix, calls the app's
    asset function, calls [cf.PushApp] and prints the report, in this
    order, each once.  The first error ends the call and is returned:
    with an unsupported delete setting nothing else is called and the
    world is untouched; when the asset function fails [cf.PushApp] is not
    called; when [cf.PushApp] fails nothing is printed; otherwise the
    result is that of [summaryPrintout]. *)
Theorem runSampleAppPush_steps (app : sampleApp) (st : state) :
  (forall e,
      snd (mapDeleteSetting deleteSetting) = Some e ->
      runSampleAppPush app st
      = (Some e, emit [Call_mapDeleteSetting deleteSetting] st)) /\
  (forall cleanup appName w1,
      mapDeleteSetting deleteSetting = (cleanup, None) ->
      RandomStringWithPrefix (appNamePrefix app) 32 (world st) = (appName, w1) ->
      (forall e w2,
          assetFunc app w1 = (inr e, w2) ->
          runSampleAppPush app st
          = (Some e, {| world := w2; trace := trace st ++ callsBeforeAsset app |})) /\
      (forall directory w2,
          assetFunc app w1 = (inl directory, w2) ->
          (forall e w3,
              PushApp (caption app) appName directory cleanup w2 = (inr e, w3) ->
              runSampleAppPush app st
              = (Some e,
                 {| world := w3;
                    trace := trace st
                             ++ callsBeforePush app appName directory cleanup |})) /\
          (forall report w3,
              PushApp (caption app) appName directory cleanup w2 = (inl report, w3) ->
              runSampleAppPush app st
              = summaryPrintout (caption app) report summarySetting
                  (fst (mapOutputSetting outputSetting))
                  {| world := w3;
                     trace := trace st
                              ++ callsBeforeSummary app appName directory cleanup |}))).
Proof.
  split; [intros e; apply runSampleAppPush_delete_error|].
  intros cleanup appName w1 Hd Hr. split.
  - intros e w2 Ha.
    apply (runSampleAppPush_after_asset app st cleanup appName w1 w2 (inr e) Hd Hr Ha).
  - intros directory w2 Ha.
    pose proof (runSampleAppPush_after_asset app st cleanup appName w1 w2
                  (inl directory) Hd Hr Ha) as Hrun.
    cbv beta iota in Hrun.
    split; intros x w3 Hp; rewrite Hp in Hrun; exact Hrun.
Qed.

(** *** The [all] command *)

Lemma pushEach_all_succeed (apps : list sampleApp) (st st' : state) :
  pushedInOrder apps st = Some st' -> pushEach apps st = (Returned, st').
Proof.
  revert st. induction apps as [|a rest IH]; intros st H;
    cbn [pushedInOrder] in H.
  - injection H as <-. reflexivity.
  - cbn [pushEach]. unfold bind.
    destruct (runSampleAppPush a st) as [[e|] st1]; [discriminate|].
    apply IH, H.
Qed.

Lemma pushEach_first_failure (before after : list sampleApp) (a : sampleApp)
    (st st1 st2 : state) (e : error) :
  pushedInOrder before st = Some st1 ->
  runSampleAppPush a st1 = (Some e, st2) ->
  pushEach (before ++ a :: after) st = (Exited e, emit [Call_ExitGonut e] st2).
Proof.
  revert st. induction before as [|b before IH]; intros st Hok Hfail;
    cbn [pushedInOrder] in Hok.
  - injection Hok as <-. cbn [List.app pushEach]. unfold bind.
    rewrite Hfail. reflexivity.
  - cbn [List.app pushEach]. unfold bind.
    destruct (runSampleAppPush b st) as [[e'|] st']; [discriminate|].
    apply IH; assumption.
Qed.

(** C5: the "all" command pushes the sample apps one after the other in
    the order of [sampleApps].  When every push returns nil it returns
    after the last one; when a push returns an error the process is
    terminated there, in the state that push left, so that no app
    further down the list is pushed. *)
Theorem pushAll_stops_at_first_failure (st : state) :
  (forall st',
      pushedInOrder sampleApps st = Some st' -> pushAll st = (Returned, st')) /\
  (forall before a after st1 st2 e,
      sampleApps = before ++ a :: after ->
      pushedInOrder before st = Some st1 ->
      runSampleAppPush a st1 = (Some e, st2) ->
      pushAll st = (Exited e, emit [Call_ExitGonut e] st2)).
Proof.
  split.
  - intros st'. apply pushEach_all_succeed.
  - intros before a after st1 st2 e Heq Hok Hfail.
    unfold pushAll. rewrite Heq.
    apply (pushEach_first_failure before after a st st1 st2 e Hok Hfail).
Qed.

(** *** App names *)

Lemma HasPrefix_trans (a b c : string) :
  strings.HasPrefix b a = true -> strings.HasPrefix c b = true ->
  strings.HasPrefix c a = true.
Proof.
  unfold strings.HasPrefix. revert b c.
  induction a as [|x a IH]; intros b c Hab Hbc; [destruct c; reflexivity|].
  destruct b as [|y b]; [discriminate|].
  destruct c as [|z c]; [discriminate|].
  cbn [String.prefix] in *.
  destruct (ascii_dec x y) as [->|]; [|discriminate].
  destruct (ascii_dec y z) as [->|]; [|discriminate].
  apply (IH b c); assumption.
Qed.

(** C9: every entry of [sampleApps] has a name prefix that begins with
    [GonutAppPrefix] and a hyphen, "gonut-", and ends with "-app-".
    Given that [text.RandomStringWithPrefix] returns a string that
    begins with the prefix it is given (when the prefix is no longer
    than the requested length), every name a push of a sample app hands
    to [cf.PushApp] begins with "gonut-". *)
Theorem sampleApps_names_start_with_gonut :
  Forall (fun app =>
            strings.HasPrefix (appNamePrefix app) (GonutAppPrefix +++ "-") = true /\
            strings.HasPrefix (appNamePrefix app) "gonut-" = true /\
            strings.HasSuffix (appNamePrefix app) "-app-" = true)
         sampleApps /\
  ((forall prefix n w,
       Z.of_nat (String.length prefix) <= n ->
       strings.HasPrefix (fst (RandomStringWithPrefix prefix n w)) prefix = true) ->
   forall app st c appName d k,
     In app sampleApps ->
     In (Call_PushApp c appName d k) (trace (snd (runSampleAppPush app st))) ->
     In (Call_PushApp c appName d k) (trace st) \/
     strings.HasPrefix appName "gonut-" = true).
Proof.
  split.
  - unfold sampleApps. repeat constructor.
  - intros Hrand app st c appName d k Happ Hin.
    destruct (runSampleAppPush_trace app st) as (es & Htr & Hname).
    rewrite Htr in Hin. apply in_app_or in Hin.
    destruct Hin as [Hin|Hin]; [left; exact Hin | right].
    rewrite (Hname c appName d k Hin).
    apply HasPrefix_trans with (b := appNamePrefix app).
    + unfold sampleApps in Happ. cbn [In] in Happ.
      repeat (destruct Happ as [<-|Happ]; [reflexivity|]). destruct Happ.
    + apply Hrand.
      unfold sampleApps in Happ. cbn [In] in Happ.
      repeat (destruct Happ as [<-|Happ]; [vm_compute; discriminate|]).
      destruct Happ.
Qed.

(** ** Further properties *)

(** *** The duration formatter, in closed form *)

Lemma splitSeconds_closed_form (total : Z) :
  0 <= total ->
  splitSeconds total = (total / 3600, (total / 60) mod 60, total mod 60).
Proof.
  intros Hnn. unfold splitSeconds.
  destruct (Z.leb_spec 60 total) as [H60|H60].
  - rewrite (Z.quot_div_nonneg total 60), (Z.rem_mod_nonneg total 60) by lia.
    assert (Hq : 0 <= total / 60) by (apply Z.div_pos; lia).
    destruct (Z.leb_spec 60 (total / 60)) as [H3600|H3600].
    + rewrite (Z.quot_div_nonneg (total / 60) 60),
        (Z.rem_mod_nonneg (total / 60) 60) by lia.
      rewrite Z.div_div by lia. reflexivity.
    + replace (total / 3600) with (total / 60 / 60)
        by (rewrite Z.div_div by lia; reflexivity).
      rewrite (Z.div_small (total / 60) 60), (Z.mod_small (total / 60) 60) by lia.
      reflexivity.
  - rewrite (Z.div_small total 3600), (Z.div_small total 60),
      (Z.mod_small total 60) by lia.
    reflexivity.
Qed.

(** [int(d.Seconds())] of a whole number of seconds is that number. *)
Lemma Seconds_to_int_whole (k : Z) :
  0 < k < 2 ^ 53 -> Float64.to_int (time.Seconds (k * time.Second)) = k.
Proof.
  intros Hk. unfold time.Seconds. change time.Second with 1000000000.
  rewrite Z.quot_mul, Z.rem_mul by lia.
  destruct (of_int_exact k Hk) as (mx & ex & Hx & Hex & Hmx & Hvx).
  rewrite Hx, of_int_1e9.
  change (Float64.div (Float64.of_int 0) (S754_finite false 8388608000000000 (-23)))
    with (S754_zero false).
  change (Float64.add (S754_finite false mx ex) (S754_zero false))
    with (S754_finite false mx ex).
  rewrite to_int_finite, Hvx by lia.
  apply Z.div_mul. apply Z.pow_nonzero; lia.
Qed.

Lemma quot_Second_bounds (d : time.Duration) :
  time.Second <= d <= time.maxDuration ->
  1 <= Z.quot d time.Second < 2 ^ 34 /\
  Z.quot d time.Second * time.Second <= d.
Proof.
  unfold time.maxDuration. change time.Second with 1000000000.
  change (2 ^ 63) with 9223372036854775808. change (2 ^ 34) with 17179869184.
  intros Hd. rewrite Z.quot_div_nonneg by lia.
  pose proof (Z.mul_div_le d 1000000000 ltac:(lia)).
  assert (1 <= d / 1000000000) by (apply Z.div_le_lower_bound; lia).
  assert (d / 1000000000 < 17179869184) by (apply Z.div_lt_upper_bound; lia).
  lia.
Qed.

(** The output from one second on holds no [l]: it is never the text
    of the sub-second case. *)
Lemma durationParts_no_l (hms : Z * Z * Z) :
  Forall (fun p => strings.ContainsByte p "l" = false) (durationParts hms).
Proof.
  destruct hms as [[h m] s]. unfold durationParts.
  destruct (0 <? h); destruct (0 <? m); destruct (0 <? s);
    cbn [List.app]; repeat constructor; apply part_without; reflexivity.
Qed.

(** X1: for every [int64] duration of at least one second, the number
    [total] that is split is the whole seconds of the duration or one
    more; the components are [total / 3600] hours, [(total / 60) mod 60]
    minutes and [total mod 60] seconds; and the output is neither empty
    nor the text of the sub-second case. *)
Theorem humanReadableDuration_int64 (d : time.Duration) :
  time.Second <= d <= time.maxDuration ->
  Z.quot d time.Second <= Float64.to_int (time.Seconds d)
    <= Z.quot d time.Second + 1 /\
  hoursOf d = Float64.to_int (time.Seconds d) / 3600 /\
  minutesOf d = (Float64.to_int (time.Seconds d) / 60) mod 60 /\
  secondsOf d = Float64.to_int (time.Seconds d) mod 60 /\
  humanReadableDuration d <> "" /\
  humanReadableDuration d <> "less than a second".
Proof.
  intros Hd. pose proof (Seconds_to_int_bounds d Hd) as Hb.
  destruct (quot_Second_bounds d Hd) as [Hq _].
  split; [exact Hb|].
  unfold hoursOf, minutesOf, secondsOf, durationComponents.
  rewrite splitSeconds_closed_form by lia. cbn [fst snd].
  repeat (split; [reflexivity|]).
  rewrite (humanReadableDuration_long d (proj1 Hd)).
  unfold durationComponents. split.
  - apply durationParts_nonempty. lia.
  - intros Heq.
    assert (Hl : strings.ContainsByte
                   (strings.Join (durationParts
                      (splitSeconds (Float64.to_int (time.Seconds d)))) " ") "l"
                 = false)
      by (apply ContainsByte_Join; [reflexivity | apply durationParts_no_l]).
    rewrite Heq in Hl. discriminate.
Qed.

(** X2: for an [int64] duration of at least one second that is shorter
    than 2^24 seconds, or that is a whole number of seconds, the
    fraction of a second is dropped: the components are those of the
    whole seconds [q] of the duration, [q / 3600], [(q / 60) mod 60] and
    [q mod 60], and the output is that of [q] seconds. *)
Theorem humanReadableDuration_truncates (d : time.Duration) :
  time.Second <= d <= time.maxDuration ->
  d < 2 ^ 24 * time.Second \/ Z.rem d time.Second = 0 ->
  Float64.to_int (time.Seconds d) = Z.quot d time.Second /\
  hoursOf d = Z.quot d time.Second / 3600 /\
  minutesOf d = (Z.quot d time.Second / 60) mod 60 /\
  secondsOf d = Z.quot d time.Second mod 60 /\
  humanReadableDuration d
  = humanReadableDuration (Z.quot d time.Second * time.Second).
Proof.
  intros Hd Hcase. destruct (quot_Second_bounds d Hd) as [Hq Hle].
  assert (Hq53 : 0 < Z.quot d time.Second < 2 ^ 53).
  { split; [lia|]. apply Z.lt_trans with (2 ^ 34); [lia|].
    apply Z.pow_lt_mono_r; lia. }
  assert (Hexact : Float64.to_int (time.Seconds d) = Z.quot d time.Second).
  { destruct Hcase as [Hsmall|Hwhole].
    - apply Seconds_to_int_exact. lia.
    - pose proof (Z.quot_rem' d time.Second) as Hqr.
      rewrite Hwhole, Z.add_0_r, Z.mul_comm in Hqr.
      rewrite Hqr at 1. apply Seconds_to_int_whole, Hq53. }
  split; [exact Hexact|].
  unfold hoursOf, minutesOf, secondsOf, durationComponents.
  rewrite Hexact, splitSeconds_closed_form by lia. cbn [fst snd].
  repeat (split; [reflexivity|]).
  assert (Hge : time.Second <= Z.quot d time.Second * time.Second).
  { change time.Second with 1000000000 in *. lia. }
  rewrite (humanReadableDuration_long d (proj1 Hd)),
    (humanReadableDuration_long _ Hge).
  unfold durationComponents.
  rewrite Hexact, (Seconds_to_int_whole _ Hq53). reflexivity.
Qed.

(** X3: from one second on, the letter of a unit occurs in the output
    exactly when the component of that unit is greater than zero: [h]
    for the hours, [m] for the minutes and [s] for the seconds. *)
Theorem humanReadableDuration_units (d : time.Duration) :
  time.Second <= d ->
  strings.ContainsByte (humanReadableDuration d) "h" = (0 <? hoursOf d) /\
  strings.ContainsByte (humanReadableDuration d) "m" = (0 <? minutesOf d) /\
  strings.ContainsByte (humanReadableDuration d) "s" = (0 <? secondsOf d).
Proof.
  intros Hd. rewrite (humanReadableDuration_long d Hd).
  unfold hoursOf, minutesOf, secondsOf.
  destruct (durationComponents d) as [[h m] s]. cbn [fst snd].
  unfold durationParts.
  destruct (0 <? h); destruct (0 <? m); destruct (0 <? s);
    cbn [List.app strings.Join];
    rewrite ?ContainsByte_append, ?Sprintf_d_numeric by reflexivity;
    repeat split; reflexivity.
Qed.

(** *** The output setting and the case of its letters *)

(** X4: [mapOutputSetting] does not see the case of ASCII letters: two
    ASCII strings that differ in the case of their letters only (their
    byte-wise lowerings are equal) are mapped to the same result. *)
Theorem mapOutputSetting_ignores_case (s t : string) :
  isASCII s = true -> isASCII t = true -> lowerBytes s = lowerBytes t ->
  mapOutputSetting s = mapOutputSetting t.
Proof.
  intros Hs Ht Heq. unfold mapOutputSetting.
  rewrite (ToLower_ASCII s Hs), (ToLower_ASCII t Ht), Heq. reflexivity.
Qed.

(** *** Looking a sample app up *)

(** A property of every entry of [sampleApps] is checked entry by entry. *)
Ltac each_sampleApp :=
  match goal with
  | |- forall app, In app sampleApps -> @?P app =>
      apply (proj1 (Forall_forall P sampleApps)); unfold sampleApps
  end.

(** X5: [lookUpSampleAppByName] finds every entry of [sampleApps] by its
    command; what it finds is an entry of [sampleApps] with the command
    asked for; it returns nil exactly for a name that is the command of
    no entry; and it does not look at aliases: for an alias of an entry
    ("go", "static", "node") it returns nil. *)
Theorem lookUpSampleAppByName_spec :
  (forall app, In app sampleApps ->
               lookUpSampleAppByName (command app) = Some app) /\
  (forall name app, lookUpSampleAppByName name = Some app ->
                    In app sampleApps /\ command app = name) /\
  (forall name, lookUpSampleAppByName name = None <->
                forall app, In app sampleApps -> command app <> name) /\
  (forall app alias, In app sampleApps -> In alias (aliases app) ->
                     lookUpSampleAppByName alias = None).
Proof.
  split; [|split; [|split]].
  - each_sampleApp. repeat constructor.
  - intros name app H. unfold lookUpSampleAppByName in H.
    apply find_some in H. destruct H as [Hin Heq].
    split; [exact Hin | apply String.eqb_eq, Heq].
  - intros name. unfold lookUpSampleAppByName. split.
    + intros H app Hin Heq.
      pose proof (find_none _ _ H app Hin) as Hne. cbv beta in Hne.
      rewrite Heq, String.eqb_refl in Hne. discriminate.
    + intros H.
      destruct (find (fun a => (command a =? name)%string) sampleApps)
        as [app|] eqn:Hf; [|reflexivity].
      apply find_some in Hf. destruct Hf as [Hin Heq].
      apply String.eqb_eq in Heq. exfalso. exact (H app Hin Heq).
  - intros app alias Happ. revert app Happ alias.
    each_sampleApp.
    repeat constructor; cbn [aliases In]; intros alias Hin;
      repeat (destruct Hin as [<-|Hin]; [reflexivity|]); destruct Hin.
Qed.

(** *** The generic command *)

Lemma genericCommandFunc_found (cmd : Command) (args : list string)
    (app : sampleApp) :
  lookUpSampleAppByName (Use cmd) = Some app ->
  genericCommandFunc cmd args = pushOrExit app.
Proof. intros H. unfold genericCommandFunc, pushOrExit. rewrite H. reflexivity. Qed.

Lemma lookUpSampleAppByName_command (app : sampleApp) :
  In app sampleApps -> lookUpSampleAppByName (command app) = Some app.
Proof.
  revert app. each_sampleApp. repeat constructor.
Qed.

(** X6: a command whose [Use] is the command of an entry of [sampleApps]
    pushes that entry, and the process is terminated exactly when the
    push returns an error, with that error as the reason; a command
    whose [Use] is the command of no entry terminates the process with
    "failed to detect which sample app is to be tested", before anything
    is generated, bundled, pushed or printed.  The arguments are not
    looked at. *)
Theorem genericCommandFunc_spec (cmd : Command) (args : list string) (st : state) :
  (forall app,
      In app sampleApps -> Use cmd = command app ->
      genericCommandFunc cmd args st
      = match runSampleAppPush app st with
        | (Some e, st') => (Exited e, emit [Call_ExitGonut e] st')
        | (None, st') => (Returned, st')
        end) /\
  ((forall app, In app sampleApps -> command app <> Use cmd) ->
   genericCommandFunc cmd args st
   = (Exited "failed to detect which sample app is to be tested",
      emit [Call_ExitGonut "failed to detect which sample app is to be tested"] st)) /\
  (forall args', genericCommandFunc cmd args st = genericCommandFunc cmd args' st).
Proof.
  split; [|split].
  - intros app Hin Huse.
    rewrite (genericCommandFunc_found cmd args app)
      by (rewrite Huse; apply lookUpSampleAppByName_command, Hin).
    unfold pushOrExit, bind.
    destruct (runSampleAppPush app st) as [[e|] st']; reflexivity.
  - intros Hnone. unfold genericCommandFunc.
    destruct (lookUpSampleAppByName (Use cmd)) as [app|] eqn:Hf; [|reflexivity].
    unfold lookUpSampleAppByName in Hf. apply find_some in Hf.
    destruct Hf as [Hin Heq]. apply String.eqb_eq in Heq.
    exfalso. exact (Hnone app Hin Heq).
  - intros args'. reflexivity.
Qed.

(** *** The commands [init] registers *)

(** X7: [init] adds eight sub-commands to [pushCmd], one for each entry
    of [sampleApps] in the order of the list and then "all"; no two of
    the names and aliases they answer to are equal; running the
    sub-command of a sample app pushes that app (the lookup by [Use]
    cannot fail) and running "all" is the loop over [sampleApps]. *)
Theorem pushSubcommands_spec :
  map Use pushSubcommands = map command sampleApps ++ ["all"] /\
  List.length pushSubcommands = 8%nat /\
  NoDup (flat_map commandNames pushSubcommands) /\
  (forall app args,
      In app sampleApps ->
      In (sampleAppCommand app) pushSubcommands /\
      execute (sampleAppCommand app) args = pushOrExit app) /\
  (forall args, In allCommand pushSubcommands /\ execute allCommand args = pushAll).
Proof.
  split; [|split; [|split; [|split]]].
  - unfold pushSubcommands. rewrite map_app, map_map. reflexivity.
  - reflexivity.
  - unfold pushSubcommands, sampleApps, commandNames.
    cbn [map List.app flat_map sampleAppCommand allCommand Use Aliases
         command aliases].
    repeat (constructor;
            [cbn [In]; intros H;
             repeat (destruct H as [H|H]; [discriminate H|]); exact H|]).
    constructor.
  - intros app args Hin. split.
    + unfold pushSubcommands. apply in_or_app. left. apply in_map, Hin.
    + unfold execute. cbn [Run sampleAppCommand].
      apply genericCommandFunc_found. cbn [Use].
      apply lookUpSampleAppByName_command, Hin.
  - intros args. split; [|reflexivity].
    unfold pushSubcommands. apply in_or_app. right. left. reflexivity.
Qed.

(** *** What a push leaves in the trace *)

Lemma pushedCaptions_app (a b : list (event Directory)) :
  pushedCaptions (a ++ b) = pushedCaptions a ++ pushedCaptions b.
Proof. unfold pushedCaptions. apply flat_map_app. Qed.

Lemma pushedCaptions_outputs (es : list (event Directory)) :
  forallb isOutput es = true -> pushedCaptions es = [].
Proof.
  induction es as [|ev es IH]; [reflexivity|].
  cbn [forallb]. intros H. apply andb_true_iff in H. destruct H as [Hev Hes].
  destruct ev; try discriminate; exact (IH Hes).
Qed.

Lemma append_same_nil {A : Type} (l es : list A) : l ++ es = l -> es = [].
Proof.
  intros H. apply (app_inv_head l). rewrite app_nil_r. exact H.
Qed.

(** One push calls [cf.PushApp] at most once, with the app's caption,
    and it has called it when it returns nil. *)
Lemma runSampleAppPush_pushed (app : sampleApp) (st : state) :
  exists b : bool,
    pushedCaptions (trace (snd (runSampleAppPush app st)))
    = pushedCaptions (trace st) ++ (if b then [caption app] else []) /\
    (fst (runSampleAppPush app st) = None -> b = true).
Proof.
  destruct (mapDeleteSetting deleteSetting) as [cleanup [e|]] eqn:Hd.
  - rewrite (runSampleAppPush_delete_error app st e) by (rewrite Hd; reflexivity).
    exists false. cbn [fst snd]. unfold emit. cbn [trace].
    rewrite pushedCaptions_app. split; [reflexivity | discriminate].
  - destruct (RandomStringWithPrefix (appNamePrefix app) 32 (world st))
      as [appName w1] eqn:Hr.
    destruct (assetFunc app w1) as [bundle w2] eqn:Ha.
    rewrite (runSampleAppPush_after_asset app st cleanup appName w1 w2 bundle Hd Hr Ha).
    destruct bundle as [directory|e].
    + exists true.
      destruct (PushApp (caption app) appName directory cleanup w2)
        as [[report|e] w3].
      * match goal with
        | |- context [summaryPrintout ?c ?r ?s ?o ?t] =>
            destruct (summaryPrintout_emits c r s o t) as (es & Hes & Hout)
        end.
        rewrite Hes. unfold emit. cbn [trace world].
        rewrite !pushedCaptions_app, (pushedCaptions_outputs es Hout), app_nil_r.
        split; reflexivity.
      * cbn [fst snd trace]. rewrite pushedCaptions_app.
        split; reflexivity.
    + exists false. cbn [fst snd trace]. rewrite pushedCaptions_app.
      split; [reflexivity | discriminate].
Qed.

Lemma pushEach_pushes_in_order (apps : list sampleApp) (st : state) :
  exists k : nat,
    (k <= List.length apps)%nat /\
    pushedCaptions (trace (snd (pushEach apps st)))
    = pushedCaptions (trace st) ++ firstn k (map caption apps) /\
    (fst (pushEach apps st) = Returned -> k = List.length apps).
Proof.
  revert st. induction apps as [|a rest IH]; intros st.
  - exists 0%nat. cbn. rewrite app_nil_r. repeat split; reflexivity.
  - destruct (runSampleAppPush_pushed a st) as (b & Hb & Hnil).
    cbn [pushEach]. unfold bind.
    destruct (runSampleAppPush a st) as [[e|] st1]; cbn [fst snd] in Hb, Hnil.
    + exists (if b then 1%nat else 0%nat).
      unfold ExitGonut, bind, log, ret, emit. cbn [fst snd trace].
      rewrite pushedCaptions_app, Hb, app_nil_r.
      destruct b; cbn [List.length map firstn];
        (split; [lia | split; [reflexivity | discriminate]]).
    + rewrite (Hnil eq_refl) in Hb.
      destruct (IH st1) as (k & Hk & Hpushed & Hall).
      exists (S k). cbn [List.length map firstn].
      split; [lia|]. split.
      * rewrite Hpushed, Hb, <- app_assoc. reflexivity.
      * intros Hret. rewrite (Hall Hret). reflexivity.
Qed.

(** X8: whatever the pushes do, the captions "all" has called
    [cf.PushApp] with are the first [k] captions of the table, in its
    order, each once: "Golang", "Python", "PHP", "Staticfile", "Swift",
    "NodeJS", "Ruby".  When the command returns, [k] is 7. *)
Theorem pushAll_pushes_in_order (st : state) :
  exists k : nat,
    (k <= 7)%nat /\
    pushedCaptions (trace (snd (pushAll st)))
    = pushedCaptions (trace st)
      ++ firstn k ["Golang"; "Python"; "PHP"; "Staticfile"; "Swift";
                   "NodeJS"; "Ruby"] /\
    (fst (pushAll st) = Returned -> k = 7%nat).
Proof. exact (pushEach_pushes_in_order sampleApps st). Qed.

(** X9: a push that returns nil has gone through every step: the
    delete setting was supported, the name was generated for the app's
    prefix with length 32, the asset function returned a directory in
    the world the name generation left, [cf.PushApp] was called in the
    world the asset function left with the caption, that name, that
    directory and the mapped cleanup setting, and returned a report,
    which [summaryPrintout] then printed without an error. *)
Theorem runSampleAppPush_nil_inversion (app : sampleApp) (st : state) :
  fst (runSampleAppPush app st) = None ->
  exists cleanup appName w1 directory w2 report w3,
    mapDeleteSetting deleteSetting = (cleanup, None) /\
    RandomStringWithPrefix (appNamePrefix app) 32 (world st) = (appName, w1) /\
    assetFunc app w1 = (inl directory, w2) /\
    PushApp (caption app) appName directory cleanup w2 = (inl report, w3) /\
    runSampleAppPush app st
    = summaryPrintout (caption app) report summarySetting
        (fst (mapOutputSetting outputSetting))
        {| world := w3;
           trace := trace st ++ callsBeforeSummary app appName directory cleanup |} /\
    world (snd (runSampleAppPush app st)) = w3.
Proof.
  destruct (mapDeleteSetting deleteSetting) as [cleanup [e|]] eqn:Hd.
  - rewrite (runSampleAppPush_delete_error app st e) by (rewrite Hd; reflexivity).
    discriminate.
  - destruct (RandomStringWithPrefix (appNamePrefix app) 32 (world st))
      as [appName w1] eqn:Hr.
    destruct (assetFunc app w1) as [bundle w2] eqn:Ha.
    rewrite (runSampleAppPush_after_asset app st cleanup appName w1 w2 bundle Hd Hr Ha).
    destruct bundle as [directory|e]; [|discriminate].
    destruct (PushApp (caption app) appName directory cleanup w2)
      as [[report|e] w3] eqn:Hp; [|discriminate].
    intros _. exists cleanup, appName, w1, directory, w2, report, w3.
    repeat (split; [first [assumption | reflexivity]|]).
    match goal with
    | |- context [summaryPrintout ?c ?r ?s ?o ?t] =>
        destruct (summaryPrintout_emits c r s o t) as (es & Hes & _)
    end.
    rewrite Hes. reflexivity.
Qed.

(** X10: [summaryPrintout] prints all or nothing.  It never changes the
    world and adds nothing but output to the trace; when it returns an
    error the state is the one it was called in, so nothing was
    printed; and when it returns nil at one of the levels "short",
    "oneline" and "full", something was printed. *)
Theorem summaryPrintout_all_or_nothing
    (appCaption : string) (report : cf.PushReport) (summary : string)
    (outputType : cf.OutputType) (st : state) :
  world (snd (summaryPrintout appCaption report summary outputType st)) = world st /\
  (exists es,
      trace (snd (summaryPrintout appCaption report summary outputType st))
      = trace st ++ es /\
      forallb isOutput es = true) /\
  (forall e,
      fst (summaryPrintout appCaption report summary outputType st) = Some e ->
      snd (summaryPrintout appCaption report summary outputType st) = st) /\
  (fst (summaryPrintout appCaption report summary outputType st) = None ->
   summary = "short" \/ summary = "oneline" \/ summary = "full" ->
   trace (snd (summaryPrintout appCaption report summary outputType st))
   <> trace st).
Proof.
  destruct (summaryPrintout_emits appCaption report summary outputType st)
    as (es & Hes & Hout).
  split; [rewrite Hes; reflexivity|].
  split; [exists es; rewrite Hes; split; [reflexivity | exact Hout]|].
  clear es Hes Hout.
  assert (Hgrow : forall es : list (event Directory),
             es <> [] -> trace (emit es st) <> trace st).
  { intros es Hne Heq. unfold emit in Heq. cbn [trace] in Heq.
    apply Hne. exact (append_same_nil _ _ Heq). }
  destruct (string_dec summary "full") as [->|Hfull].
  - destruct (Z.eq_dec outputType JSON) as [->|Hj];
      [rewrite summaryPrintout_full_json; destruct (jsonFailure report)
      |destruct (Z.eq_dec outputType YAML) as [->|Hy];
       [rewrite summaryPrintout_full_yaml by assumption;
        destruct (yamlFailure report)
       |rewrite summaryPrintout_full_human by assumption]];
      cbn [fst snd];
      (split; [intros e0 H; first [reflexivity | discriminate H]|]);
      intros H _; try discriminate H; apply Hgrow;
      unfold jsonRendering, yamlRendering, humanReport, reportHeader;
      discriminate.
  - destruct (string_dec summary "short") as [Hs|Hs];
      [|destruct (string_dec summary "oneline") as [Ho|Ho]].
    + rewrite summaryPrintout_oneline by (left; exact Hs). cbn [fst snd].
      split; [discriminate|]. intros _ _. apply Hgrow. discriminate.
    + rewrite summaryPrintout_oneline by (right; exact Ho). cbn [fst snd].
      split; [discriminate|]. intros _ _. apply Hgrow. discriminate.
    + rewrite summaryPrintout_silent by assumption. cbn [fst snd].
      split; [discriminate|]. intros _ [H|[H|H]]; contradiction.
Qed.

(** X11: with the delete and summary flags at the defaults [init] gives
    them ("always" and "short"), whatever the output flag is: the
    cleanup setting is [cf.Always], and a push whose asset function and
    [cf.PushApp] succeed returns nil and prints the one-line summary
    and nothing else. *)
Theorem runSampleAppPush_default_flags (app : sampleApp) (st : state)
    (appName : string) (w1 w2 w3 : World) (directory : Directory)
    (report : cf.PushReport) :
  flagDefaultOf "delete" = Some deleteSetting ->
  flagDefaultOf "summary" = Some summarySetting ->
  RandomStringWithPrefix (appNamePrefix app) 32 (world st) = (appName, w1) ->
  assetFunc app w1 = (inl directory, w2) ->
  PushApp (caption app) appName directory Always w2 = (inl report, w3) ->
  mapDeleteSetting deleteSetting = (Always, None) /\
  runSampleAppPush app st
  = (None,
     {| world := w3;
        trace := trace st
                 ++ callsBeforeSummary app appName directory Always
                 ++ [Out_Printf (oneLineSummary (caption app) report)] |}).
Proof.
  intros Hdel Hsum Hr Ha Hp.
  injection Hdel as Hdel. injection Hsum as Hsum.
  assert (Hd : mapDeleteSetting deleteSetting = (Always, None))
    by (rewrite <- Hdel; reflexivity).
  split; [exact Hd|].
  rewrite (runSampleAppPush_after_asset app st Always appName w1 w2
             (inl directory) Hd Hr Ha).
  cbv beta iota. rewrite Hp.
  rewrite summaryPrintout_oneline by (left; symmetry; exact Hsum).
  unfold emit. cbn [world trace]. rewrite <- app_assoc. reflexivity.
Qed.

(** *** Unsupported settings, seen from the commands *)

(** X12: with an unsupported delete setting every command stops at its
    first step: the command of a sample app and "all" terminate the
    process with "unsupported delete setting: " followed by the
    setting, after the one call of [mapDeleteSetting]; no name is
    generated, no asset function called, nothing pushed or printed. *)
Theorem unsupported_delete_setting_stops_commands (st : state) :
  deleteSetting <> "always" -> deleteSetting <> "never" ->
  deleteSetting <> "on-success" ->
  (forall app,
      pushOrExit app st
      = (Exited ("unsupported delete setting: " +++ deleteSetting),
         emit [Call_mapDeleteSetting deleteSetting;
               Call_ExitGonut ("unsupported delete setting: " +++ deleteSetting)]
              st)) /\
  pushAll st
  = (Exited ("unsupported delete setting: " +++ deleteSetting),
     emit [Call_mapDeleteSetting deleteSetting;
           Call_ExitGonut ("unsupported delete setting: " +++ deleteSetting)]
          st).
Proof.
  intros H1 H2 H3.
  assert (Hd : snd (mapDeleteSetting deleteSetting)
               = Some ("unsupported delete setting: " +++ deleteSetting)).
  { unfold mapDeleteSetting.
    destruct (String.eqb_spec deleteSetting "always"); [contradiction|].
    destruct (String.eqb_spec deleteSetting "never"); [contradiction|].
    destruct (String.eqb_spec deleteSetting "on-success"); [contradiction|].
    reflexivity. }
  assert (Hone : forall app,
             pushOrExit app st
             = (Exited ("unsupported delete setting: " +++ deleteSetting),
                emit [Call_mapDeleteSetting deleteSetting;
                      Call_ExitGonut ("unsupported delete setting: " +++ deleteSetting)]
                     st)).
  { intros app. unfold pushOrExit, bind.
    rewrite (runSampleAppPush_delete_error app st _ Hd).
    unfold ExitGonut, bind, log, ret. rewrite emit_emit. reflexivity. }
  split; [exact Hone|].
  unfold pushAll, sampleApps. cbn [pushEach]. unfold bind.
  rewrite (runSampleAppPush_delete_error _ st _ Hd).
  unfold ExitGonut, bind, log, ret. rewrite emit_emit. reflexivity.
Qed.

(** X13: an unsupported output setting is no error.  When neither
    [cf.JSON] nor [cf.YAML] is the sentinel [-1], the summary level is
    "full" and the output setting lowers to neither "json" nor "yaml",
    a push whose steps succeed returns nil and prints the multi-line
    report. *)
Theorem unsupported_output_setting_prints_report (app : sampleApp) (st : state)
    (cleanup : cf.AppCleanupSetting) (appName : string) (w1 w2 w3 : World)
    (directory : Directory) (report : cf.PushReport) :
  JSON <> -1 -> YAML <> -1 ->
  ToLower outputSetting <> "json" -> ToLower outputSetting <> "yaml" ->
  summarySetting = "full" ->
  mapDeleteSetting deleteSetting = (cleanup, None) ->
  RandomStringWithPrefix (appNamePrefix app) 32 (world st) = (appName, w1) ->
  assetFunc app w1 = (inl directory, w2) ->
  PushApp (caption app) appName directory cleanup w2 = (inl report, w3) ->
  runSampleAppPush app st
  = (None,
     {| world := w3;
        trace := trace st
                 ++ callsBeforeSummary app appName directory cleanup
                 ++ humanReport (caption app) report |}).
Proof.
  intros Hj Hy Hnj Hny Hsum Hd Hr Ha Hp.
  rewrite (runSampleAppPush_after_asset app st cleanup appName w1 w2
             (inl directory) Hd Hr Ha).
  cbv beta iota. rewrite Hp.
  assert (Ho : fst (mapOutputSetting outputSetting) = -1).
  { unfold mapOutputSetting.
    destruct (String.eqb_spec (ToLower outputSetting) "json"); [contradiction|].
    destruct (String.eqb_spec (ToLower outputSetting) "yaml"); [contradiction|].
    reflexivity. }
  set (calls := callsBeforeSummary app appName directory cleanup).
  rewrite Ho, Hsum.
  rewrite summaryPrintout_full_human by (intros E; symmetry in E; contradiction).
  unfold emit. cbn [world trace]. rewrite <- app_assoc. reflexivity.
Qed.

End Push.

(** ** The properties at work on the stand-in *)

Local Abbreviation st0 := (Build_state Demo.World Demo.Directory 0%nat []).

Local Abbreviation demoApps :=
  (sampleApps Demo.World Demo.Directory
     (Demo.assets "go") (Demo.assets "python") Demo.missingAssets
     (Demo.assets "staticfile") (Demo.assets "swift") (Demo.assets "nodejs")
     (Demo.assets "ruby")).

Local Abbreviation demoPush deleteSetting summarySetting outputSetting :=
  (runSampleAppPush Demo.Always Demo.Never Demo.OnSuccess Demo.JSON Demo.YAML
     Demo.unicode_ToLower Demo.json_Indent Demo.World Demo.Directory
     Demo.RandomStringWithPrefix Demo.PushApp
     deleteSetting summarySetting outputSetting).

Local Abbreviation demoPrintout :=
  (summaryPrintout Demo.JSON Demo.YAML Demo.json_Indent Demo.World Demo.Directory).

Local Abbreviation golang :=
  (Build_sampleApp Demo.World Demo.Directory "Golang" "golang" ["go"]
     "gonut-golang-app-" (Demo.assets "go")).

Local Abbreviation php :=
  (Build_sampleApp Demo.World Demo.Directory "PHP" "php" []
     "gonut-php-app-" Demo.missingAssets).

Lemma humanReadableDuration_spec_witness :
  humanReadableDuration 999999999 = "less than a second" /\
  strings.ContainsByte (humanReadableDuration (3600 * time.Second)) "m" = false.
Proof.
  split.
  - apply (proj1 humanReadableDuration_spec). reflexivity.
  - apply (proj2 (proj2 (proj2 humanReadableDuration_spec)) (3600 * time.Second)).
    + vm_compute. discriminate.
    + vm_compute. reflexivity.
Defined.

Lemma mapOutputSetting_spec_witness :
  mapOutputSetting Demo.JSON Demo.YAML Demo.unicode_ToLower "jSoN"
  = (Demo.JSON, None) /\
  mapOutputSetting Demo.JSON Demo.YAML Demo.unicode_ToLower "xml" = (-1, None).
Proof.
  pose proof (mapOutputSetting_spec Demo.JSON Demo.YAML Demo.unicode_ToLower)
    as (_ & Hjson & _ & Hother & _).
  split.
  - apply Hjson. reflexivity.
  - apply Hother; vm_compute; discriminate.
Defined.

Lemma mapDeleteSetting_spec_witness :
  mapDeleteSetting Demo.Always Demo.Never Demo.OnSuccess "sometimes"
  = (-1, Some "unsupported delete setting: sometimes").
Proof.
  pose proof (mapDeleteSetting_spec Demo.Always Demo.Never Demo.OnSuccess)
    as (_ & _ & _ & Hother & _).
  apply Hother; discriminate.
Defined.

Lemma runSampleAppPush_steps_witness :
  demoPush "bogus" "short" "" golang st0
  = (Some "unsupported delete setting: bogus",
     Build_state Demo.World Demo.Directory 0%nat [Call_mapDeleteSetting "bogus"]) /\
  demoPush "always" "short" "" php st0
  = (Some "no assets bundled",
     Build_state Demo.World Demo.Directory 1%nat
       [Call_mapDeleteSetting "always"; Call_mapOutputSetting "";
        Call_RandomStringWithPrefix "gonut-php-app-" 32; Call_assetFunc "php"]).
Proof.
  split.
  - apply (proj1 (runSampleAppPush_steps Demo.Always Demo.Never Demo.OnSuccess
                    Demo.JSON Demo.YAML Demo.unicode_ToLower Demo.json_Indent
                    Demo.World Demo.Directory Demo.RandomStringWithPrefix
                    Demo.PushApp "bogus" "short" "" golang st0)).
    reflexivity.
  - apply (proj1 (proj2 (runSampleAppPush_steps Demo.Always Demo.Never
                    Demo.OnSuccess Demo.JSON Demo.YAML Demo.unicode_ToLower
                    Demo.json_Indent Demo.World Demo.Directory
                    Demo.RandomStringWithPrefix Demo.PushApp
                    "always" "short" "" php st0)
                  Demo.Always "gonut-php-app-aaaaaaaaaaaaaaaaaa" 1%nat
                  eq_refl eq_refl)).
    reflexivity.
Defined.

Lemma pushAll_stops_at_first_failure_witness :
  fst (pushAll Demo.Always Demo.Never Demo.OnSuccess Demo.JSON Demo.YAML
         Demo.unicode_ToLower Demo.json_Indent Demo.World Demo.Directory
         Demo.RandomStringWithPrefix Demo.PushApp
         (Demo.assets "go") (Demo.assets "python") Demo.missingAssets
         (Demo.assets "staticfile") (Demo.assets "swift") (Demo.assets "nodejs")
         (Demo.assets "ruby") "always" "short" "" st0)
  = Exited "no assets bundled".
Proof.
  pose proof (proj2 (pushAll_stops_at_first_failure
                 Demo.Always Demo.Never Demo.OnSuccess Demo.JSON Demo.YAML
                 Demo.unicode_ToLower Demo.json_Indent Demo.World Demo.Directory
                 Demo.RandomStringWithPrefix Demo.PushApp
                 (Demo.assets "go") (Demo.assets "python") Demo.missingAssets
                 (Demo.assets "staticfile") (Demo.assets "swift")
                 (Demo.assets "nodejs") (Demo.assets "ruby")
                 "always" "short" "" st0)
               (firstn 2 demoApps) php (skipn 3 demoApps)) as H.
  specialize (H _ _ _ eq_refl eq_refl eq_refl).
  rewrite H. reflexivity.
Defined.

Lemma summaryPrintout_error_only_from_serialization_witness :
  fst (demoPrintout "Golang" Demo.brokenReport "full" Demo.JSON st0)
  = Some "json: unsupported value" /\
  fst (demoPrintout "Golang" Demo.brokenReport "short" Demo.JSON st0) = None.
Proof.
  pose proof (fun summary =>
                summaryPrintout_error_only_from_serialization
                  Demo.JSON Demo.YAML Demo.json_Indent Demo.World Demo.Directory
                  "Golang" Demo.brokenReport summary Demo.JSON st0) as H.
  split.
  - apply (proj1 (H "full")). split; [reflexivity|].
    left. split; reflexivity.
  - apply (proj1 (proj2 (H "short"))). discriminate.
Defined.

Lemma summaryPrintout_rendering_witness :
  demoPrintout "Golang" Demo.report "oneline" Demo.YAML st0
  = (None,
     Build_state Demo.World Demo.Directory 0%nat
       [Out_Printf ("Successfully pushed *Golang* sample app in CadetBlue{1 min 30 sec}."
                    +++ LF)]) /\
  demoPrintout "Golang" Demo.report "full" Demo.JSON st0
  = (None, Build_state Demo.World Demo.Directory 0%nat [Out_Println "{}"]) /\
  demoPrintout "Golang" Demo.brokenReport "full" Demo.YAML st0
  = (Some "yaml: unsupported value", st0) /\
  demoPrintout "Golang" Demo.brokenReport "full" (-1) st0
  = (None,
     Build_state Demo.World Demo.Directory 0%nat
       (humanReport Demo.Directory "Golang" Demo.brokenReport)).
Proof.
  pose proof (fun report outputType =>
                summaryPrintout_rendering
                  Demo.JSON Demo.YAML Demo.json_Indent Demo.World Demo.Directory
                  "Golang" report outputType st0) as H.
  split; [|split; [|split]].
  - apply (proj1 (proj2 (H Demo.report Demo.YAML)) "oneline").
    right. reflexivity.
  - apply (proj1 (proj2 (proj2 (H Demo.report Demo.JSON)))). reflexivity.
  - apply (proj1 (proj2 (proj2 (proj2 (H Demo.brokenReport Demo.YAML)))));
      [discriminate | reflexivity].
  - apply (proj1 (proj2 (proj2 (proj2 (proj2 (H Demo.brokenReport (-1)))))));
      discriminate.
Defined.

(** At level "full" with output type JSON, a report whose serialization
    fails has nothing printed: none of the three renderings appears, and
    the error is what the call returns. *)
Lemma summaryPrintout_full_prints_nothing_on_failure :
  ~ printsOneRendering Demo.JSON Demo.YAML Demo.json_Indent
      Demo.World Demo.Directory "Golang" Demo.brokenReport Demo.JSON st0 /\
  demoPrintout "Golang" Demo.brokenReport "full" Demo.JSON st0
  = (Some "json: unsupported value", st0).
Proof.
  split; [|reflexivity].
  unfold printsOneRendering. vm_compute.
  intros [H | [H | H]]; discriminate.
Qed.

Lemma summaryPrintout_unknown_level_is_silent_witness :
  demoPrintout "Golang" Demo.report "verbose" Demo.JSON st0 = (None, st0).
Proof.
  apply (proj1 (summaryPrintout_unknown_level_is_silent
                  Demo.JSON Demo.YAML Demo.json_Indent Demo.World Demo.Directory
                  "Golang" Demo.report Demo.JSON st0));
    discriminate.
Defined.

Lemma prefix_append (a b : string) : String.prefix a (a +++ b) = true.
Proof.
  induction a as [|c a IH]; [destruct b; reflexivity|].
  cbn [String.append String.prefix].
  destruct (ascii_dec c c) as [_|Hne]; [exact IH | contradiction].
Qed.

Lemma Demo_RandomStringWithPrefix_keeps_prefix (prefix : string) (n : Z)
    (w : Demo.World) :
  Z.of_nat (String.length prefix) <= n ->
  strings.HasPrefix (fst (Demo.RandomStringWithPrefix prefix n w)) prefix = true.
Proof. intros _. apply prefix_append. Qed.

Lemma sampleApps_names_start_with_gonut_witness :
  In (Call_PushApp "Golang" "gonut-golang-app-aaaaaaaaaaaaaaa" "go" Demo.Always)
     (trace Demo.World Demo.Directory st0) \/
  strings.HasPrefix "gonut-golang-app-aaaaaaaaaaaaaaa" "gonut-" = true.
Proof.
  apply (proj2 (sampleApps_names_start_with_gonut
                  Demo.Always Demo.Never Demo.OnSuccess Demo.JSON Demo.YAML
                  Demo.unicode_ToLower Demo.json_Indent Demo.World Demo.Directory
                  Demo.RandomStringWithPrefix Demo.PushApp
                  (Demo.assets "go") (Demo.assets "python") Demo.missingAssets
                  (Demo.assets "staticfile") (Demo.assets "swift")
                  (Demo.assets "nodejs") (Demo.assets "ruby")
                  "always" "short" "")
               Demo_RandomStringWithPrefix_keeps_prefix
               golang st0 "Golang" "gonut-golang-app-aaaaaaaaaaaaaaa" "go" Demo.Always).
  - left. reflexivity.
  - vm_compute. tauto.
Defined.

(** ** The further properties at work on the stand-in *)

Local Abbreviation demoLookUp :=
  (lookUpSampleAppByName Demo.World Demo.Directory
     (Demo.assets "go") (Demo.assets "python") Demo.missingAssets
     (Demo.assets "staticfile") (Demo.assets "swift") (Demo.assets "nodejs")
     (Demo.assets "ruby")).

Local Abbreviation demoRun f deleteSetting summarySetting outputSetting :=
  (f Demo.Always Demo.Never Demo.OnSuccess Demo.JSON Demo.YAML
     Demo.unicode_ToLower Demo.json_Indent Demo.World Demo.Directory
     Demo.RandomStringWithPrefix Demo.PushApp
     (Demo.assets "go") (Demo.assets "python") Demo.missingAssets
     (Demo.assets "staticfile") (Demo.assets "swift") (Demo.assets "nodejs")
     (Demo.assets "ruby") deleteSetting summarySetting outputSetting).

Lemma humanReadableDuration_int64_witness :
  hoursOf 3661500000000 = Float64.to_int (time.Seconds 3661500000000) / 3600 /\
  humanReadableDuration 3661500000000 <> "".
Proof.
  destruct (humanReadableDuration_int64 3661500000000) as (_ & Hh & _ & _ & Hne & _).
  - split; vm_compute; discriminate.
  - exact (conj Hh Hne).
Defined.

Lemma humanReadableDuration_truncates_witness :
  Float64.to_int (time.Seconds 3661999999999) = 3661 /\
  humanReadableDuration 3661999999999
  = humanReadableDuration (Z.quot 3661999999999 time.Second * time.Second).
Proof.
  destruct (humanReadableDuration_truncates 3661999999999) as (Hq & _ & _ & _ & Hout).
  - split; vm_compute; discriminate.
  - left. vm_compute. reflexivity.
  - exact (conj Hq Hout).
Defined.

Lemma humanReadableDuration_units_witness :
  strings.ContainsByte (humanReadableDuration (3600 * time.Second)) "m"
  = (0 <? minutesOf (3600 * time.Second)).
Proof.
  apply (proj1 (proj2 (humanReadableDuration_units (3600 * time.Second)
                         ltac:(vm_compute; discriminate)))).
Defined.

Lemma mapOutputSetting_ignores_case_witness :
  mapOutputSetting Demo.JSON Demo.YAML Demo.unicode_ToLower "YaML"
  = mapOutputSetting Demo.JSON Demo.YAML Demo.unicode_ToLower "yaml".
Proof.
  apply mapOutputSetting_ignores_case; reflexivity.
Defined.

Lemma lookUpSampleAppByName_spec_witness :
  demoLookUp "golang" = Some golang /\ demoLookUp "go" = None.
Proof.
  pose proof (lookUpSampleAppByName_spec Demo.World Demo.Directory
                (Demo.assets "go") (Demo.assets "python") Demo.missingAssets
                (Demo.assets "staticfile") (Demo.assets "swift")
                (Demo.assets "nodejs") (Demo.assets "ruby"))
    as (Hfound & _ & _ & Halias).
  split.
  - apply (Hfound golang). left. reflexivity.
  - apply (Halias golang "go"); left; reflexivity.
Defined.

Lemma genericCommandFunc_spec_witness :
  fst (demoRun genericCommandFunc "always" "short" ""
         {| Use := "php"; Aliases := []; Short := ""; Long := "";
            Run := Some Run_genericCommandFunc |} [] st0)
  = Exited "no assets bundled" /\
  fst (demoRun genericCommandFunc "always" "short" ""
         {| Use := "cobol"; Aliases := []; Short := ""; Long := "";
            Run := Some Run_genericCommandFunc |} [] st0)
  = Exited "failed to detect which sample app is to be tested".
Proof.
  split.
  - rewrite (proj1 (demoRun genericCommandFunc_spec "always" "short" ""
                      {| Use := "php"; Aliases := []; Short := ""; Long := "";
                         Run := Some Run_genericCommandFunc |} [] st0) php).
    + reflexivity.
    + right. right. left. reflexivity.
    + reflexivity.
  - rewrite (proj1 (proj2 (demoRun genericCommandFunc_spec "always" "short" ""
                      {| Use := "cobol"; Aliases := []; Short := ""; Long := "";
                         Run := Some Run_genericCommandFunc |} [] st0))).
    + reflexivity.
    + intros app Hin. cbn [In sampleApps] in Hin.
      repeat (destruct Hin as [<-|Hin]; [discriminate|]). destruct Hin.
Defined.

Local Abbreviation demoStep f deleteSetting summarySetting outputSetting :=
  (f Demo.Always Demo.Never Demo.OnSuccess Demo.JSON Demo.YAML
     Demo.unicode_ToLower Demo.json_Indent Demo.World Demo.Directory
     Demo.RandomStringWithPrefix Demo.PushApp
     deleteSetting summarySetting outputSetting).

Lemma pushSubcommands_spec_witness :
  demoRun execute "always" "short" ""
    (sampleAppCommand Demo.World Demo.Directory golang) ["--verbose"]
  = demoStep pushOrExit "always" "short" "" golang.
Proof.
  apply (proj1 (proj2 (proj2 (proj2 (demoRun pushSubcommands_spec "always" "short" ""))))
           golang ["--verbose"]).
  left. reflexivity.
Defined.

Lemma pushAll_pushes_in_order_witness :
  exists k : nat,
    (k <= 7)%nat /\
    pushedCaptions Demo.Directory
      (trace Demo.World Demo.Directory
         (snd (demoRun pushAll "always" "short" "" st0)))
    = firstn k ["Golang"; "Python"; "PHP"; "Staticfile"; "Swift"; "NodeJS"; "Ruby"].
Proof.
  destruct (demoRun pushAll_pushes_in_order "always" "short" "" st0)
    as (k & Hk & Hpushed & _).
  exists k. exact (conj Hk Hpushed).
Defined.

Lemma runSampleAppPush_nil_inversion_witness :
  exists cleanup appName directory w2 report w3,
    mapDeleteSetting Demo.Always Demo.Never Demo.OnSuccess "always"
    = (cleanup, None) /\
    Demo.PushApp "Golang" appName directory cleanup w2 = (inl report, w3).
Proof.
  destruct (demoStep runSampleAppPush_nil_inversion "always" "short" "" golang st0
              eq_refl)
    as (cleanup & appName & w1 & directory & w2 & report & w3
        & Hd & _ & _ & Hp & _).
  exists cleanup, appName, directory, w2, report, w3. exact (conj Hd Hp).
Defined.

Lemma summaryPrintout_all_or_nothing_witness :
  snd (demoPrintout "Golang" Demo.brokenReport "full" Demo.JSON st0) = st0 /\
  trace Demo.World Demo.Directory
    (snd (demoPrintout "Golang" Demo.report "full" Demo.JSON st0))
  <> trace Demo.World Demo.Directory st0.
Proof.
  split.
  - apply (proj1 (proj2 (proj2 (summaryPrintout_all_or_nothing
                                  Demo.JSON Demo.YAML Demo.json_Indent
                                  Demo.World Demo.Directory
                                  "Golang" Demo.brokenReport "full" Demo.JSON st0)))
             "json: unsupported value").
    reflexivity.
  - apply (proj2 (proj2 (proj2 (summaryPrintout_all_or_nothing
                                  Demo.JSON Demo.YAML Demo.json_Indent
                                  Demo.World Demo.Directory
                                  "Golang" Demo.report "full" Demo.JSON st0)))).
    + reflexivity.
    + right. right. reflexivity.
Defined.

Lemma runSampleAppPush_default_flags_witness :
  fst (demoPush "always" "short" "json" golang st0) = None /\
  List.length (trace Demo.World Demo.Directory
                 (snd (demoPush "always" "short" "json" golang st0))) = 7%nat.
Proof.
  destruct (demoStep runSampleAppPush_default_flags "always" "short" "json"
              golang st0 "gonut-golang-app-aaaaaaaaaaaaaaa"
              1%nat 1%nat 1%nat "go" Demo.report
              eq_refl eq_refl eq_refl eq_refl eq_refl) as [_ Hrun].
  rewrite Hrun. split; reflexivity.
Defined.

Lemma unsupported_delete_setting_stops_commands_witness :
  demoRun pushAll "sometimes" "short" "" st0
  = (Exited "unsupported delete setting: sometimes",
     Build_state Demo.World Demo.Directory 0%nat
       [Call_mapDeleteSetting "sometimes";
        Call_ExitGonut "unsupported delete setting: sometimes"]).
Proof.
  apply (proj2 (demoRun unsupported_delete_setting_stops_commands
                  "sometimes" "short" "" st0
                  ltac:(discriminate) ltac:(discriminate) ltac:(discriminate))).
Defined.

Lemma unsupported_output_setting_prints_report_witness :
  demoPush "never" "full" "xml" golang st0
  = (None,
     Build_state Demo.World Demo.Directory 1%nat
       (callsBeforeSummary Demo.JSON Demo.YAML Demo.unicode_ToLower
          Demo.World Demo.Directory "never" "full" "xml" golang
          "gonut-golang-app-aaaaaaaaaaaaaaa" "go" Demo.Never
        ++ humanReport Demo.Directory "Golang" Demo.report)).
Proof.
  apply (demoStep unsupported_output_setting_prints_report "never" "full" "xml"
           golang st0 Demo.Never "gonut-golang-app-aaaaaaaaaaaaaaa"
           1%nat 1%nat 1%nat "go" Demo.report);
    first [discriminate | reflexivity].
Defined.
